(** * Dialog engine of the sales-assistant backend: a shallow embedding

    The development follows [app/services/dialog.py] (class
    [AssistantDialog]) together with the services it calls:
    [app/services/profile.py], [app/schemas/lead.py], [app/models/lead.py]
    and [app/utils/db_service.py]; the history route of
    [app/routes/dialog.py], which reads what the engine writes; and two
    functions on text and data, [Base.duplicate_headers_without_hashes]
    of [app/services/base.py] and [Log.unescape_newlines] of
    [app/utils/log.py].

    Layout: Python text and JSON values, the [json] module (printer and
    parser), the lead table with the request's ORM session, the profile
    services, the dialog engine, the route and the two functions, and
    then the facts proved about them. *)

From Stdlib Require Import ZArith NArith List Ascii String Lia Bool.
From Stdlib Require Decimal DecimalN DecimalFacts.
From stdpp Require Import gmap.
Import ListNotations.

Local Open Scope N_scope.

(** ** Python text

    A Python [str] is a sequence of Unicode code points; slicing and
    [len] count code points, so text is a list of code points here.
    Literals of the source are written as UTF-8 string literals and
    decoded by [U]. *)

Abbreviation pystr := (list N).

Fixpoint utf8 (bs : list N) : pystr :=
  match bs with
  | [] => []
  | b :: r =>
      if b <? 128 then b :: utf8 r
      else if b <? 224 then
        match r with
        | b2 :: r' => ((b mod 32) * 64 + b2 mod 64) :: utf8 r'
        | [] => [b]
        end
      else if b <? 240 then
        match r with
        | b2 :: b3 :: r' =>
            ((b mod 16) * 4096 + (b2 mod 64) * 64 + b3 mod 64) :: utf8 r'
        | _ => b :: r
        end
      else
        match r with
        | b2 :: b3 :: b4 :: r' =>
            ((b mod 8) * 262144 + (b2 mod 64) * 4096 + (b3 mod 64) * 64
             + b4 mod 64) :: utf8 r'
        | _ => b :: r
        end
  end.

Definition U (s : string) : pystr :=
  utf8 (map N_of_ascii (list_ascii_of_string s)).

Fixpoint pystr_eqb (a b : pystr) : bool :=
  match a, b with
  | [], [] => true
  | x :: a', y :: b' => (x =? y) && pystr_eqb a' b'
  | _, _ => false
  end.

(** [sep.join(parts)] *)
Fixpoint join (sep : pystr) (parts : list pystr) : pystr :=
  match parts with
  | [] => []
  | [p] => p
  | p :: rest => p ++ sep ++ join sep rest
  end.

(** [s[:n]] for a non-negative literal [n]. *)
Definition slice_to (n : nat) (s : pystr) : pystr := firstn n s.

(** [s[-n:]], the trailing slice of at most [n] characters. *)
Definition slice_last (n : nat) (s : pystr) : pystr :=
  skipn (length s - n) s.

(** The characters [str.strip()] removes: [str.isspace]. *)
Definition is_space (c : N) : bool :=
  ((9 <=? c) && (c <=? 13)) || ((28 <=? c) && (c <=? 32))
  || (c =? 133) || (c =? 160) || (c =? 5760)
  || ((8192 <=? c) && (c <=? 8202)) || (c =? 8232) || (c =? 8233)
  || (c =? 8239) || (c =? 8287) || (c =? 12288).

Fixpoint lstrip (s : pystr) : pystr :=
  match s with
  | c :: r => if is_space c then lstrip r else s
  | [] => []
  end.

Definition strip (s : pystr) : pystr := rev (lstrip (rev (lstrip s))).

(** [re.sub(r'[\x00-\x1f]+', '', s)]: every character up to U+001F goes. *)
Definition strip_control (s : pystr) : pystr :=
  List.filter (fun c => 32 <=? c) s.

(** A surrogate code point, U+D800 to U+DFFF.  In a [str] it stands
    alone (a pair that [json.loads] reads is one character above
    U+FFFF), and a text that holds one cannot be encoded as UTF-8. *)
Definition is_surrogate (c : N) : bool := (55296 <=? c) && (c <=? 57343).

Definition has_surrogate (s : pystr) : bool := existsb is_surrogate s.

(** ** JSON values, which are also the Python values the engine handles

    [json.loads] yields [None], [bool], [int], [float], [str], [list]
    and [dict]; the attributes of a lead and the entries of the history
    are values of these types.  A float is kept as the literal it was
    read from (sign, integer part, fraction digits, exponent): the
    engine never computes with one, and what Python prints for a float
    ([repr]) reads back as the same float, as the literal does here.
    An [int] is unbounded; the interpreter's limit on the number of
    digits of an [int] literal is left out. *)

Record float_lit := FloatLit {
  fl_neg : bool;
  fl_int : N;
  fl_frac : option Decimal.uint;
  fl_exp : option (bool * option bool * Decimal.uint)
    (* upper-case E?, sign character (None, '+' = false, '-' = true), digits *)
}.

#[local] Unset Elimination Schemes.

Inductive json :=
| JNull
| JBool (b : bool)
| JInt (z : Z)
| JFloat (f : float_lit)
| JNaN
| JInf (neg : bool)
| JStr (s : pystr)
| JArr (l : list json)
| JObj (kv : list (pystr * json)).

#[local] Set Elimination Schemes.

(** A [dict] keeps its keys in insertion order; assigning to a key that
    is present replaces the value in place. *)
Fixpoint dict_set (k : pystr) (v : json) (d : list (pystr * json))
  : list (pystr * json) :=
  match d with
  | [] => [(k, v)]
  | (k', v') :: r =>
      if pystr_eqb k k' then (k', v) :: r else (k', v') :: dict_set k v r
  end.

Fixpoint dict_find (k : pystr) (d : list (pystr * json)) : option json :=
  match d with
  | [] => None
  | (k', v) :: r => if pystr_eqb k k' then Some v else dict_find k r
  end.

(** [d.get(k, default)] *)
Definition dict_get (k : pystr) (default : json) (d : list (pystr * json))
  : json :=
  match dict_find k d with Some v => v | None => default end.

Definition dict_of_pairs (pairs : list (pystr * json)) : list (pystr * json) :=
  fold_left (fun d kv => dict_set (fst kv) (snd kv) d) pairs [].

(** Truth value of a Python object ([bool(v)]). *)
Definition truthy (v : json) : bool :=
  match v with
  | JNull => false
  | JBool b => b
  | JInt z => negb (z =? 0)%Z
  | JFloat f =>
      negb ((fl_int f =? 0)
            && match fl_frac f with
               | Some u => N.of_uint u =? 0
               | None => true
               end)
  | JNaN | JInf _ => true
  | JStr s => match s with [] => false | _ => true end
  | JArr l => match l with [] => false | _ => true end
  | JObj kv => match kv with [] => false | _ => true end
  end.

(** [isinstance(v, str)] *)
Definition is_str (v : json) : bool :=
  match v with JStr _ => true | _ => false end.

(** [type(v).__name__] *)
Definition type_name (v : json) : pystr :=
  match v with
  | JNull => U "NoneType"
  | JBool _ => U "bool"
  | JInt _ => U "int"
  | JFloat _ | JNaN | JInf _ => U "float"
  | JStr _ => U "str"
  | JArr _ => U "list"
  | JObj _ => U "dict"
  end.

(** ** [json.dumps(v, ensure_ascii=False)] *)

Fixpoint uint_chars (u : Decimal.uint) : pystr :=
  match u with
  | Decimal.Nil => []
  | Decimal.D0 u => 48 :: uint_chars u
  | Decimal.D1 u => 49 :: uint_chars u
  | Decimal.D2 u => 50 :: uint_chars u
  | Decimal.D3 u => 51 :: uint_chars u
  | Decimal.D4 u => 52 :: uint_chars u
  | Decimal.D5 u => 53 :: uint_chars u
  | Decimal.D6 u => 54 :: uint_chars u
  | Decimal.D7 u => 55 :: uint_chars u
  | Decimal.D8 u => 56 :: uint_chars u
  | Decimal.D9 u => 57 :: uint_chars u
  end.

Definition N_chars (n : N) : pystr := uint_chars (N.to_uint n).

Definition Z_chars (z : Z) : pystr :=
  match z with
  | Zneg p => 45 :: N_chars (Npos p)
  | _ => N_chars (Z.to_N z)
  end.

Definition is_nil (u : Decimal.uint) : bool :=
  match u with Decimal.Nil => true | _ => false end.

Definition frac_chars (fr : option Decimal.uint) : pystr :=
  match fr with
  | Some u => if is_nil u then [] else 46 :: uint_chars u
  | None => []
  end.

Definition exp_chars (e : option (bool * option bool * Decimal.uint)) : pystr :=
  match e with
  | Some (upper, sg, u) =>
      if is_nil u then []
      else (if upper then 69 else 101)
           :: match sg with
              | None => []
              | Some false => [43]
              | Some true => [45]
              end ++ uint_chars u
  | None => []
  end.

Definition float_chars (f : float_lit) : pystr :=
  (if fl_neg f then [45] else []) ++ N_chars (fl_int f)
  ++ frac_chars (fl_frac f) ++ exp_chars (fl_exp f).

Definition hexdigit (d : N) : N := if d <? 10 then 48 + d else 87 + d.

(** The replacement [json.encoder.ESCAPE_DCT] gives one character. *)
Definition escape_char (c : N) : pystr :=
  if c =? 34 then [92; 34]
  else if c =? 92 then [92; 92]
  else if c =? 10 then [92; 110]
  else if c =? 13 then [92; 114]
  else if c =? 9 then [92; 116]
  else if c =? 8 then [92; 98]
  else if c =? 12 then [92; 102]
  else if c <? 32 then [92; 117; 48; 48; hexdigit (c / 16); hexdigit (c mod 16)]
  else [c].

Definition str_chars (s : pystr) : pystr :=
  34 :: flat_map escape_char s ++ [34].

Fixpoint json_dumps (v : json) : pystr :=
  match v with
  | JNull => U "null"
  | JBool true => U "true"
  | JBool false => U "false"
  | JInt z => Z_chars z
  | JFloat f => float_chars f
  | JNaN => U "NaN"
  | JInf false => U "Infinity"
  | JInf true => U "-Infinity"
  | JStr s => str_chars s
  | JArr l => 91 :: join [44; 32] (map json_dumps l) ++ [93]
  | JObj kv =>
      123 :: join [44; 32]
               (map (fun p => str_chars (fst p) ++ [58; 32] ++ json_dumps (snd p)) kv)
          ++ [125]
  end.

(** ** [json.loads]

    The scanner of [json.decoder] and [json.scanner]: whitespace is
    [ \t\n\r]; strings are scanned in strict mode; a number is an
    [int] unless it has a fraction or an exponent.  An [int] is as
    long and a nesting as deep as the text has them: the limits an
    interpreter sets to them are not part of the function, which is
    [json.loads] on the texts within those limits.  The history route
    of [app/routes/dialog.py], whose handler tells the errors of the
    limits from [json.JSONDecodeError], takes them as a parameter. *)

Definition is_json_ws (c : N) : bool :=
  (c =? 32) || (c =? 9) || (c =? 10) || (c =? 13).

Fixpoint skip_ws (s : pystr) : pystr :=
  match s with
  | c :: r => if is_json_ws c then skip_ws r else s
  | [] => []
  end.

Fixpoint strip_prefix (p s : pystr) : option pystr :=
  match p, s with
  | [], _ => Some s
  | x :: p', y :: s' => if x =? y then strip_prefix p' s' else None
  | _ :: _, [] => None
  end.

Definition hexval (c : N) : option N :=
  if (48 <=? c) && (c <=? 57) then Some (c - 48)
  else if (97 <=? c) && (c <=? 102) then Some (c - 87)
  else if (65 <=? c) && (c <=? 70) then Some (c - 55)
  else None.

Definition hex4 (a b c d : N) : option N :=
  match hexval a, hexval b, hexval c, hexval d with
  | Some x, Some y, Some z, Some w => Some (((x * 16 + y) * 16 + z) * 16 + w)
  | _, _, _, _ => None
  end.

(** [json.decoder.BACKSLASH] *)
Definition backslash (e : N) : option N :=
  if e =? 34 then Some 34
  else if e =? 92 then Some 92
  else if e =? 47 then Some 47
  else if e =? 98 then Some 8
  else if e =? 102 then Some 12
  else if e =? 110 then Some 10
  else if e =? 114 then Some 13
  else if e =? 116 then Some 9
  else None.

Definition is_high_surrogate (u : N) : bool := (55296 <=? u) && (u <=? 56319).
Definition is_low_surrogate (u : N) : bool := (56320 <=? u) && (u <=? 57343).

Definition cons_scanned (c : N) (r : option (pystr * pystr))
  : option (pystr * pystr) :=
  match r with
  | Some (t, rest) => Some (c :: t, rest)
  | None => None
  end.

(** [scanstring]: the text after an opening quote, up to and including
    the closing quote; returns the decoded string and what follows. *)
Fixpoint scanstring (s : pystr) : option (pystr * pystr) :=
  match s with
  | [] => None
  | c :: r =>
      if c =? 34 then Some ([], r)
      else if c =? 92 then
        match r with
        | [] => None
        | e :: r1 =>
            if e =? 117 then
              match r1 with
              | h1 :: h2 :: h3 :: h4 :: r2 =>
                  match hex4 h1 h2 h3 h4 with
                  | None => None
                  | Some u =>
                      match r2 with
                      | b :: e2 :: k1 :: k2 :: k3 :: k4 :: r3 =>
                          match hex4 k1 k2 k3 k4 with
                          | Some u2 =>
                              if is_high_surrogate u && (b =? 92) && (e2 =? 117)
                                 && is_low_surrogate u2
                              then cons_scanned
                                     (65536 + (u - 55296) * 1024 + (u2 - 56320))
                                     (scanstring r3)
                              else cons_scanned u (scanstring r2)
                          | None => cons_scanned u (scanstring r2)
                          end
                      | _ => cons_scanned u (scanstring r2)
                      end
                  end
              | _ => None
              end
            else
              match backslash e with
              | Some ch => cons_scanned ch (scanstring r1)
              | None => None
              end
        end
      else if c <? 32 then None
      else cons_scanned c (scanstring r)
  end.

Definition digit_of (c : N) : option (Decimal.uint -> Decimal.uint) :=
  if c =? 48 then Some Decimal.D0
  else if c =? 49 then Some Decimal.D1
  else if c =? 50 then Some Decimal.D2
  else if c =? 51 then Some Decimal.D3
  else if c =? 52 then Some Decimal.D4
  else if c =? 53 then Some Decimal.D5
  else if c =? 54 then Some Decimal.D6
  else if c =? 55 then Some Decimal.D7
  else if c =? 56 then Some Decimal.D8
  else if c =? 57 then Some Decimal.D9
  else None.

(** The longest run of decimal digits at the head of [s]. *)
Fixpoint scan_digits (s : pystr) : Decimal.uint * pystr :=
  match s with
  | c :: r =>
      match digit_of c with
      | Some d => let (u, r') := scan_digits r in (d u, r')
      | None => (Decimal.Nil, s)
      end
  | [] => (Decimal.Nil, [])
  end.

(** The integer part of [NUMBER_RE]: [0|[1-9][0-9]*]. *)
Definition scan_int_part (s : pystr) : option (Decimal.uint * pystr) :=
  match s with
  | c :: r =>
      if c =? 48 then Some (Decimal.D0 Decimal.Nil, r)
      else
        match scan_digits s with
        | (Decimal.Nil, _) => None
        | (u, r') => Some (u, r')
        end
  | [] => None
  end.

(** The optional fraction [(\.[0-9]+)?]. *)
Definition scan_frac (s : pystr) : option Decimal.uint * pystr :=
  match s with
  | c :: r =>
      if c =? 46 then
        match scan_digits r with
        | (Decimal.Nil, _) => (None, s)
        | (u, r') => (Some u, r')
        end
      else (None, s)
  | [] => (None, s)
  end.

(** The optional exponent [([eE][-+]?[0-9]+)?]. *)
Definition scan_exp (s : pystr)
  : option (bool * option bool * Decimal.uint) * pystr :=
  match s with
  | c :: r =>
      if (c =? 101) || (c =? 69) then
        let (sg, r1) :=
          match r with
          | c1 :: r1 =>
              if c1 =? 43 then (Some false, r1)
              else if c1 =? 45 then (Some true, r1)
              else (None, r)
          | [] => (None, r)
          end in
        match scan_digits r1 with
        | (Decimal.Nil, _) => (None, s)
        | (u, r') => (Some (c =? 69, sg, u), r')
        end
      else (None, s)
  | [] => (None, s)
  end.

Definition scan_sign (s : pystr) : bool * pystr :=
  match s with
  | c :: r => if c =? 45 then (true, r) else (false, s)
  | [] => (false, s)
  end.

Definition scan_unsigned (neg : bool) (s1 : pystr) : option (json * pystr) :=
  match scan_int_part s1 with
  | None => None
  | Some (u, r1) =>
      let (fr, r2) := scan_frac r1 in
      let (ex, r3) := scan_exp r2 in
      match fr, ex with
      | None, None =>
          let n := Z.of_N (N.of_uint u) in
          Some (JInt (if neg then Z.opp n else n), r3)
      | _, _ => Some (JFloat (FloatLit neg (N.of_uint u) fr ex), r3)
      end
  end.

(** [NUMBER_RE] matched at the head of [s]. *)
Definition scan_number (s : pystr) : option (json * pystr) :=
  let (neg, s1) := scan_sign s in scan_unsigned neg s1.

(** Literals tried when the first character opens neither a string, an
    object nor an array, in the order of [scanner.py]. *)
Definition scan_atom (s : pystr) : option (json * pystr) :=
  match strip_prefix (U "null") s with
  | Some r => Some (JNull, r)
  | None =>
  match strip_prefix (U "true") s with
  | Some r => Some (JBool true, r)
  | None =>
  match strip_prefix (U "false") s with
  | Some r => Some (JBool false, r)
  | None =>
  match scan_number s with
  | Some res => Some res
  | None =>
  match strip_prefix (U "NaN") s with
  | Some r => Some (JNaN, r)
  | None =>
  match strip_prefix (U "Infinity") s with
  | Some r => Some (JInf false, r)
  | None =>
  match strip_prefix (U "-Infinity") s with
  | Some r => Some (JInf true, r)
  | None => None
  end end end end end end end.

(** [scan_once], [JSONArray] and [JSONObject]; [fuel] bounds the number
    of nested calls. *)
Fixpoint parse_value (fuel : nat) (s : pystr) : option (json * pystr) :=
  match fuel with
  | O => None
  | S f =>
      match s with
      | [] => None
      | c :: r =>
          if c =? 34 then
            match scanstring r with
            | Some (t, r') => Some (JStr t, r')
            | None => None
            end
          else if c =? 123 then
            match skip_ws r with
            | c' :: r' =>
                if c' =? 125 then Some (JObj [], r')
                else if c' =? 34 then
                  match parse_members f r' with
                  | Some (kv, r'') => Some (JObj (dict_of_pairs kv), r'')
                  | None => None
                  end
                else None
            | [] => None
            end
          else if c =? 91 then
            match skip_ws r with
            | c' :: r' =>
                if c' =? 93 then Some (JArr [], r')
                else
                  match parse_items f (c' :: r') with
                  | Some (l, r'') => Some (JArr l, r'')
                  | None => None
                  end
            | [] => None
            end
          else scan_atom s
      end
  end

with parse_items (fuel : nat) (s : pystr) : option (list json * pystr) :=
  match fuel with
  | O => None
  | S f =>
      match parse_value f s with
      | None => None
      | Some (v, r) =>
          match skip_ws r with
          | c :: r' =>
              if c =? 93 then Some ([v], r')
              else if c =? 44 then
                match parse_items f (skip_ws r') with
                | Some (vs, r'') => Some (v :: vs, r'')
                | None => None
                end
              else None
          | [] => None
          end
      end
  end

(** The members of an object, entered just after the opening quote of a
    key. *)
with parse_members (fuel : nat) (s : pystr)
  : option (list (pystr * json) * pystr) :=
  match fuel with
  | O => None
  | S f =>
      match scanstring s with
      | None => None
      | Some (k, r) =>
          match skip_ws r with
          | c :: r1 =>
              if c =? 58 then
                match parse_value f (skip_ws r1) with
                | None => None
                | Some (v, r2) =>
                    match skip_ws r2 with
                    | c2 :: r3 =>
                        if c2 =? 125 then Some ([(k, v)], r3)
                        else if c2 =? 44 then
                          match skip_ws r3 with
                          | c3 :: r4 =>
                              if c3 =? 34 then
                                match parse_members f r4 with
                                | Some (kvs, r5) => Some ((k, v) :: kvs, r5)
                                | None => None
                                end
                              else None
                          | [] => None
                          end
                        else None
                    | [] => None
                    end
                end
              else None
          | [] => None
          end
      end
  end.

(** [json.loads(s)]; [None] stands for a raised [JSONDecodeError]. *)
Definition json_loads (s : pystr) : option json :=
  match parse_value (2 * length s + 2) (skip_ws s) with
  | Some (v, r) =>
      match skip_ws r with
      | [] => Some v
      | _ :: _ => None
      end
  | None => None
  end.

(** ** Exceptions and the engine's monad

    A raised exception is represented by its text ([str(e)]), which is
    all the engine ever uses of it. *)

Inductive result (A : Type) :=
| Ok (a : A)
| Raise (msg : pystr).

Arguments Ok {A} a.
Arguments Raise {A} msg.

(** ** The lead table and the request's ORM session

    [app/models/lead.py]: a row of table [leads], keyed by its integer
    primary key.  The columns [login], [password], [is_admin] and
    [timestamp] are neither read nor written by the dialog engine and
    are left out. *)

Record LeadRow := mkRow {
  row_name : option pystr;
  row_contact : option pystr;
  row_log : option pystr
}.

(** The committed state of the database: the rows of [leads] and the
    next value of the key generator of its autoincrement primary key. *)
Record Database := mkDb {
  leads : gmap Z LeadRow;
  lead_seq : Z
}.

(** An instance of the mapped class [Lead]: its attributes hold Python
    values. *)
Record LeadObj := mkObj {
  lead_name : json;
  lead_contact : json;
  lead_log : json
}.

(** An object of the session's identity map: the current attributes and
    the row as it was loaded, against which the unit of work decides
    what an UPDATE has to set. *)
Record Tracked := mkTracked {
  obj : LeadObj;
  loaded : LeadRow
}.

Definition col_value (c : option pystr) : json :=
  match c with Some s => JStr s | None => JNull end.

Definition obj_of_row (r : LeadRow) : LeadObj :=
  mkObj (col_value (row_name r)) (col_value (row_contact r))
        (col_value (row_log r)).

Definition track (r : LeadRow) : Tracked := mkTracked (obj_of_row r) r.

(** [value == committed] for an attribute whose loaded value came from a
    nullable text column. *)
Definition same_value (v : json) (c : option pystr) : bool :=
  match v, c with
  | JNull, None => true
  | JStr s, Some t => pystr_eqb s t
  | _, _ => false
  end.

(** A message of the chat prompt. *)
Record Message := mkMessage {
  role : pystr;
  content : pystr
}.

(** [app/models/order.py], as read by [read_orders_service]. *)
Record Order := mkOrder {
  o_id : Z;
  o_date : option pystr;
  o_customer : option pystr;
  o_phone : option pystr;
  o_products : option pystr;
  o_sum : option pystr;
  o_status : option pystr;
  o_payment : option pystr;
  o_delivery : option pystr;
  o_track : option pystr
}.

(** An element of [search_chunks]' result; the score is carried as the
    text the format specification [:.3f] gives it. *)
Record Chunk := mkChunk {
  chunk_score : pystr;
  chunk_content : pystr
}.

(** [app.state.base], when the application has one. *)
Record KnowledgeBase := mkBase {
  base_read : result pystr;
  search_chunks : pystr -> nat -> result (list Chunk)
}.

(** What a turn finds outside the engine: the collaborators' answers,
    the clock and the random source, the constant [DIALOG_SYS_PROMPT]
    of [app/services/assistant.py], and four functions of the Python
    runtime and the database driver taken as given: [str()] of a value
    that is not a [str], the text of the error [json.loads] raises on
    an input, what binding a value that is neither [None] nor a [str]
    to a text column does, and the text of the error the driver raises
    for a [str] it cannot encode. *)
Record Env := mkEnv {
  env_sys_prompt : pystr;
  env_today : pystr;
  env_randint : Z;
  env_orders : result (list Order);
  env_base : option KnowledgeBase;
  env_gpt : list Message -> result pystr;
  env_sql : pystr -> Database -> option Database;
  env_repr : json -> pystr;
  env_json_error : pystr -> pystr;
  env_bind : json -> result (option pystr);
  env_encode_error : pystr -> pystr
}.

(** What the engine does to the outside, in order. *)
Inductive Event :=
| EvGpt (messages : list Message)       (* gpt_request(messages) *)
| EvSql (sql : pystr)                   (* execute_sql(sql) *)
| EvUpdateLead (id : Z) (row : LeadRow) (* update_lead_service committed *)
| EvCreateLead (id : Z) (row : LeadRow) (* create_lead_service committed *).

(** The state a request works on: the database, the entry of the
    session's identity map for the lead [client_id] (the session
    [request.state.db] is new for each request and the engine loads no
    other lead), the engine's [self.dialog_history], and the events so
    far. *)
Record State := mkState {
  db : Database;
  session : option Tracked;
  dialog_history : list json;
  trace : list Event
}.

Definition M (A : Type) : Type := State -> result A * State.

Definition ret {A} (a : A) : M A := fun st => (Ok a, st).

Definition raise {A} (msg : pystr) : M A := fun st => (Raise msg, st).

Definition bind {A B} (m : M A) (k : A -> M B) : M B :=
  fun st =>
    match m st with
    | (Ok a, st') => k a st'
    | (Raise e, st') => (Raise e, st')
    end.

(** [try: m except Exception as e: h e] *)
Definition try_except {A} (m : M A) (h : pystr -> M A) : M A :=
  fun st =>
    match m st with
    | (Ok a, st') => (Ok a, st')
    | (Raise e, st') => h e st'
    end.

Definition lift {A} (r : result A) : M A := fun st => (r, st).

Definition emit (e : Event) : M unit :=
  fun st => (Ok tt, mkState (db st) (session st) (dialog_history st)
                            (trace st ++ [e])).

Definition set_db (d : Database) : M unit :=
  fun st => (Ok tt, mkState d (session st) (dialog_history st) (trace st)).

Definition set_session (s : option Tracked) : M unit :=
  fun st => (Ok tt, mkState (db st) s (dialog_history st) (trace st)).

Definition set_history (h : list json) : M unit :=
  fun st => (Ok tt, mkState (db st) (session st) h (trace st)).

Definition get_state : M State := fun st => (Ok st, st).

Notation "'do' x <- m ; k" := (bind m (fun x => k))
  (at level 10, x name, m at level 100, k at level 200,
   format "'[v' 'do'  x  <-  m ; '/' k ']'").
Notation "'run' m ; k" := (bind m (fun _ => k))
  (at level 10, m at level 100, k at level 200,
   format "'[v' 'run'  m ; '/' k ']'").

(** ** [app/schemas/lead.py]

    [LeadBase] declares [name], [contact] and [log], all optional text;
    [LeadCreate] adds nothing.  A field is either unset or set to a
    value ([exclude_unset] tells them apart).  The constructor takes
    keyword arguments: declared fields are validated, any other keyword
    is ignored (the models set no [extra] policy). *)

Record LeadBase := mkLead {
  lb_name : option (option pystr);
  lb_contact : option (option pystr);
  lb_log : option (option pystr)
}.

Definition validation_error : pystr :=
  U "1 validation error for LeadBase: Input should be a valid string".

Definition field_of_kwargs (key : pystr) (kwargs : list (pystr * json))
  : result (option (option pystr)) :=
  match dict_find key kwargs with
  | None => Ok None
  | Some JNull => Ok (Some None)
  | Some (JStr s) => Ok (Some (Some s))
  | Some _ => Raise validation_error
  end.

Definition LeadBase_new (kwargs : list (pystr * json)) : result LeadBase :=
  match field_of_kwargs (U "name") kwargs with
  | Raise e => Raise e
  | Ok n =>
      match field_of_kwargs (U "contact") kwargs with
      | Raise e => Raise e
      | Ok c =>
          match field_of_kwargs (U "log") kwargs with
          | Raise e => Raise e
          | Ok l => Ok (mkLead n c l)
          end
      end
  end.

(** [class LeadCreate(LeadBase): pass] *)
Definition LeadCreate_new (kwargs : list (pystr * json)) : result LeadBase :=
  LeadBase_new kwargs.

Definition field_default (f : option (option pystr)) : option pystr :=
  match f with Some v => v | None => None end.

(** [lead.dict()] and [lead.model_dump()]: every declared field. *)
Definition model_dump (l : LeadBase) : list (pystr * json) :=
  [(U "name", col_value (field_default (lb_name l)));
   (U "contact", col_value (field_default (lb_contact l)));
   (U "log", col_value (field_default (lb_log l)))].

(** ** [app/services/profile.py] and the unit of work *)

Definition http_404 : pystr := U "404: Лид не найден".

Definition stale_data : pystr :=
  U "UPDATE statement on table 'leads' expected to update 1 row(s); 0 were matched.".

Definition integrity_error : pystr :=
  U "UNIQUE constraint failed: leads.id".

Definition is_dirty (t : Tracked) : bool :=
  negb (same_value (lead_name (obj t)) (row_name (loaded t))
        && same_value (lead_contact (obj t)) (row_contact (loaded t))
        && same_value (lead_log (obj t)) (row_log (loaded t))).

(** [setattr(db_lead, key, value)] for the fields a schema object has
    set. *)
Definition set_field (f : option (option pystr)) (old : json) : json :=
  match f with Some v => col_value v | None => old end.

Definition apply_update (u : LeadBase) (o : LeadObj) : LeadObj :=
  mkObj (set_field (lb_name u) (lead_name o))
        (set_field (lb_contact u) (lead_contact o))
        (set_field (lb_log u) (lead_log o)).

Section Engine.

Variable env : Env.
Variable client_id : Z.

(** The parameter a column of an UPDATE or INSERT gets for an
    attribute.  The driver encodes a text as UTF-8 and raises
    [UnicodeEncodeError] on one that holds a lone surrogate. *)
Definition bind_value (v : json) : result (option pystr) :=
  match v with
  | JNull => Ok None
  | JStr s =>
      if has_surrogate s then Raise (env_encode_error env s) else Ok (Some s)
  | _ => env_bind env v
  end.

(** The UPDATE sets the columns whose attribute differs from the
    loaded value and leaves the others as they are in the table. *)
Definition flush_column (v : json) (was current : option pystr)
  : result (option pystr) :=
  if same_value v was then Ok current else bind_value v.

Definition flush (t : Tracked) (current : LeadRow) : result LeadRow :=
  match flush_column (lead_name (obj t)) (row_name (loaded t))
                     (row_name current) with
  | Raise e => Raise e
  | Ok n =>
      match flush_column (lead_contact (obj t)) (row_contact (loaded t))
                         (row_contact current) with
      | Raise e => Raise e
      | Ok c =>
          match flush_column (lead_log (obj t)) (row_log (loaded t))
                             (row_log current) with
          | Raise e => Raise e
          | Ok l => Ok (mkRow n c l)
          end
      end
  end.

(** [await db.commit()]: the tracked lead, when it has changes, is
    written to its row; afterwards the session holds no loaded state
    (the objects are expired and reload on their next use). *)
Definition commit (id : Z) : M unit :=
  fun st =>
    match session st with
    | None => (Ok tt, st)
    | Some t =>
        if is_dirty t then
          match leads (db st) !! id with
          | None => (Raise stale_data, st)
          | Some current =>
              match flush t current with
              | Raise e => (Raise e, st)
              | Ok row' =>
                  (Ok tt, mkState (mkDb (<[id := row']> (leads (db st)))
                                        (lead_seq (db st)))
                                  None (dialog_history st) (trace st))
              end
          end
        else (Ok tt, mkState (db st) None (dialog_history st) (trace st))
    end.

(** [select(LeadModel).where(LeadModel.id == id)] followed by
    [scalar_one_or_none()]: the object of the identity map when the
    lead is already loaded, a newly loaded one otherwise. *)
Definition select_lead (id : Z) : M (option Tracked) :=
  fun st =>
    match leads (db st) !! id with
    | None =>
        match session st with
        | Some t => if is_dirty t then (Raise stale_data, st)
                    else (Ok None, st)
        | None => (Ok None, st)
        end
    | Some row =>
        let t := match session st with Some t => t | None => track row end in
        (Ok (Some t),
         mkState (db st) (Some t) (dialog_history st) (trace st))
    end.

Definition read_lead_service (id : Z) : M Tracked :=
  do found <- select_lead id;
  match found with
  | None => raise http_404
  | Some t => ret t
  end.

Definition update_lead_service (id : Z) (lead_update : LeadBase) : M unit :=
  do found <- select_lead id;
  match found with
  | None => raise http_404
  | Some t =>
      run set_session (Some (mkTracked (apply_update lead_update (obj t))
                                       (loaded t)));
      run commit id;
      do st <- get_state;
      match leads (db st) !! id with
      | Some row => emit (EvUpdateLead id row)
      | None => ret tt
      end
  end.

(** The parameters of the INSERT, column by column. *)
Definition bind_row (row : LeadRow) : result LeadRow :=
  match bind_value (col_value (row_name row)) with
  | Raise e => Raise e
  | Ok n =>
      match bind_value (col_value (row_contact row)) with
      | Raise e => Raise e
      | Ok c =>
          match bind_value (col_value (row_log row)) with
          | Raise e => Raise e
          | Ok l => Ok (mkRow n c l)
          end
      end
  end.

(** A new [LeadModel] from the fields of [lead.dict()], then [db.add],
    [db.commit] and [db.refresh]: the row gets its key from the
    table's generator.  When the INSERT fails nothing of the
    transaction is kept. *)
Definition create_lead_service (lead : LeadBase) : M Z :=
  do st <- get_state;
  let id := lead_seq (db st) in
  let row := mkRow (field_default (lb_name lead))
                   (field_default (lb_contact lead))
                   (field_default (lb_log lead)) in
  match leads (db st) !! id with
  | Some _ => raise integrity_error
  | None =>
      run commit client_id;
      do st1 <- get_state;
      match bind_row row with
      | Raise e => fun _ => (Raise e, st)
      | Ok row' =>
          run set_db (mkDb (<[id := row']> (leads (db st1))) (id + 1)%Z);
          run emit (EvCreateLead id row');
          ret id
      end
  end.

(** ** [app/utils/db_service.py]

    [execute_sql] runs the statement in a session of its own and
    commits it; any exception makes it return [False]. *)
Definition execute_sql (sql : pystr) : M bool :=
  run emit (EvSql sql);
  do st <- get_state;
  match env_sql env sql (db st) with
  | Some d => run set_db d; ret true
  | None => ret false
  end.

(** ** [app/services/dialog.py]: class [AssistantDialog]

    The calls to [self.log] are left out: [app.state.log] is set at
    start-up ([app/main.py]) and its methods only write to the log
    files.  The variable [lead] of the source is [None] or a reference
    to the object the session tracks for [client_id]. *)

Definition detached : pystr := U "lead is not bound to the session".

(** Reading the attributes of [lead]. *)
Definition lead_attrs : M LeadObj :=
  fun st =>
    match session st with
    | Some t => (Ok (obj t), st)
    | None => (Raise detached, st)
    end.

(** Assigning to attributes of [lead]. *)
Definition lead_assign (f : LeadObj -> LeadObj) : M unit :=
  fun st =>
    match session st with
    | Some t =>
        (Ok tt, mkState (db st) (Some (mkTracked (f (obj t)) (loaded t)))
                        (dialog_history st) (trace st))
    | None => (Raise detached, st)
    end.

(** Lines 44-68. *)
Definition load_history : M (option Z * list json) :=
  try_except
    (do t <- read_lead_service client_id;
     let lead := Some client_id in
     if truthy (lead_log (obj t)) then
       match lead_log (obj t) with
       | JStr s =>
           match json_loads s with
           | Some (JArr history) => ret (lead, history)
           | Some _ => ret (lead, [])
           | None => ret (lead, [])
           end
       | _ => ret (lead, [])
       end
     else ret (lead, []))
    (fun _ => ret (None, [])).

(** Lines 100-105: the entry is the dict with keys [role], [content]. *)
Definition entry (role : pystr) (message : json) : json :=
  JObj [(U "role", JStr role); (U "content", message)].

Definition add_message (role : pystr) (message : json) : M unit :=
  do st <- get_state;
  set_history (dialog_history st ++ [entry role message]).

(** Lines 73-95. *)
Definition save_history (lead : option Z) : M unit :=
  do st <- get_state;
  let payload := [(U "log", JStr (json_dumps (JArr (dialog_history st))))] in
  match lead with
  | Some _ =>
      do lead_data <- lift (LeadBase_new payload);
      update_lead_service client_id lead_data
  | None =>
      let payload := dict_set (U "id") (JInt client_id) payload in
      do lead_create <- lift (LeadCreate_new payload);
      do _ <- create_lead_service lead_create;
      ret tt
  end.

(** Lines 110-141. *)
Definition clear_dialog : M unit :=
  run set_history [];
  do empty_lead <- lift (LeadBase_new
                           [(U "name", JNull); (U "contact", JNull);
                            (U "log", JStr (json_dumps (JArr [])))]);
  do existing_lead <- try_except
                        (do _ <- read_lead_service client_id;
                         ret (Some client_id))
                        (fun _ => ret None);
  match existing_lead with
  | Some _ => update_lead_service client_id empty_lead
  | None =>
      do empty_create <- lift (LeadCreate_new
                                 ((U "id", JInt client_id)
                                  :: model_dump empty_lead));
      do _ <- create_lead_service empty_create;
      ret tt
  end.

(** [x or '-'] and the like, for an optional text attribute. *)
Definition or_text (v : option pystr) (alt : pystr) : pystr :=
  match v with
  | Some (c :: s) => c :: s
  | _ => alt
  end.

Definition cancelled (o : Order) : bool :=
  match o_status o with
  | Some s => pystr_eqb s (U "отменен")
  | None => false
  end.

Definition format_order (o : Order) : pystr :=
  U "#" ++ Z_chars (o_id o) ++ U ": " ++ or_text (o_date o) (U "-")
  ++ U " | " ++ or_text (o_customer o) (U "-")
  ++ U " | " ++ or_text (o_phone o) (U "-")
  ++ U " | " ++ or_text (o_products o) (U "-")
  ++ U " | " ++ or_text (o_sum o) (U "-")
  ++ U " | " ++ or_text (o_status o) (U "-")
  ++ U " | " ++ or_text (o_payment o) (U "-")
  ++ U " | " ++ or_text (o_delivery o) (U "-")
  ++ U " | " ++ or_text (o_track o) (U "-").

(** Lines 165-183. *)
Definition orders_text : pystr :=
  match env_orders env with
  | Ok orders =>
      match map format_order (List.filter (fun o => negb (cancelled o)) orders) with
      | [] => U "— заказы не найдены —"
      | formatted => join [10] formatted
      end
  | Raise e => U "Ошибка чтения заказов: " ++ e
  end.

Definition format_chunk (r : Chunk) : pystr :=
  U "- (score=" ++ chunk_score r ++ U ") " ++ chunk_content r.

Definition kb_error (e : pystr) : pystr := U "Ошибка чтения базы знаний: " ++ e.

(** Lines 185-204: [(faq_text, chunks_text)]. *)
Definition knowledge (user_input : pystr) : pystr * pystr :=
  match env_base env with
  | None => ([], [])
  | Some b =>
      match base_read b with
      | Raise e => (kb_error e, [])
      | Ok text =>
          let faq_text :=
            match strip text with
            | [] => U "База знаний пуста."
            | _ => text
            end in
          match search_chunks b user_input 5 with
          | Raise e => (kb_error e, [])
          | Ok [] => (faq_text, U "Релевантные фрагменты не найдены.")
          | Ok search_results =>
              (faq_text, join [10; 10] (map format_chunk search_results))
          end
      end
  end.

(** [m[key]] for an entry of the history. *)
Definition subscript (m : json) (key : pystr) : result json :=
  match m with
  | JObj kv =>
      match dict_find key kv with
      | Some v => Ok v
      | None => Raise (U "'" ++ key ++ U "'")
      end
  | JArr _ => Raise (U "list indices must be integers or slices, not str")
  | JStr _ => Raise (U "string indices must be integers, not 'str'")
  | v => Raise (U "'" ++ type_name v ++ U "' object is not subscriptable")
  end.

(** [str(v)], as an f-string formats a value. *)
Definition py_str (v : json) : pystr :=
  match v with
  | JStr s => s
  | _ => env_repr env v
  end.

Definition render_entry (m : json) : result pystr :=
  match subscript m (U "role") with
  | Raise e => Raise e
  | Ok r =>
      match subscript m (U "content") with
      | Raise e => Raise e
      | Ok c => Ok (py_str r ++ U ": " ++ py_str c)
      end
  end.

Fixpoint render_entries (h : list json) : result (list pystr) :=
  match h with
  | [] => Ok []
  | m :: rest =>
      match render_entry m with
      | Raise e => Raise e
      | Ok line =>
          match render_entries rest with
          | Raise e => Raise e
          | Ok lines => Ok (line :: lines)
          end
      end
  end.

(** Lines 206-209. *)
Definition dialog_text (h : list json) : result pystr :=
  match h with
  | [] => Ok (U "— диалог отсутствует —")
  | _ =>
      match render_entries h with
      | Raise e => Raise e
      | Ok lines => Ok (join [10] lines)
      end
  end.

Definition system (text : pystr) : Message := mkMessage (U "system") text.

Definition history_header : pystr := U "История диалога:" ++ [10; 10].
Definition faq_header : pystr := U "FAQ:" ++ [10; 10].
Definition chunks_header : pystr :=
  U "Релевантные фрагменты базы знаний:" ++ [10; 10].

(** Lines 211-222. *)
Definition context_messages (faq_text chunks_text dialog : pystr)
  : list Message :=
  [ system (strip (env_sys_prompt env));
    system (U "Текущая дата: " ++ env_today env);
    system (U "Трек-номер для нового заказа: " ++ Z_chars (env_randint env));
    system (U "Текущие заказы (таблица order):" ++ [10; 10] ++ orders_text);
    system (faq_header ++ slice_to 4000 faq_text);
    system (chunks_header ++ slice_to 4000 chunks_text);
    system (history_header ++ slice_to 2000 dialog) ].

Definition greeting_nudge : Message :=
  system (U "Если клиент ещё не представился, начни диалог с приветствия и представления от имени ассистента. Пример: 'Здравствуйте! Меня зовут Астра, я консультант магазина товаров для животных. Как могу к вам обращаться?'").

Definition or_value (v : json) (alt : pystr) : pystr :=
  if truthy v then py_str v else alt.

Definition known_info (o : LeadObj) : Message :=
  system (U "Известные данные клиента:" ++ [10] ++ U "Имя: "
          ++ or_value (lead_name o) (U "не указано") ++ [10]
          ++ U "Контакт: " ++ or_value (lead_contact o) (U "не указан")).

Definition user_message (user_input : pystr) : Message :=
  mkMessage (U "user")
    (U "Ответ строго в формате JSON!" ++ [10; 10]
     ++ U "Вопрос пользователя:" ++ [10; 10] ++ user_input).

Definition none_has_no_name : pystr :=
  U "'NoneType' object has no attribute 'name'".

(** Lines 224-247: the messages after the seven of the context. *)
Definition profile_tail (o : LeadObj) (user_input : pystr) : list Message :=
  (if negb (truthy (lead_name o)) && negb (truthy (lead_contact o))
   then [greeting_nudge] else [])
  ++ (if truthy (lead_name o) || truthy (lead_contact o)
      then [known_info o] else [])
  ++ [user_message user_input].

Definition profile_messages (lead : option Z) (user_input : pystr)
  : M (list Message) :=
  match lead with
  | None => raise none_has_no_name                     (* line 225 *)
  | Some _ =>
      do o <- lead_attrs;
      ret (profile_tail o user_input)
  end.

Definition parse_error : pystr := U "Ошибка разбора ответа модели: ".

(** Lines 253-269: [(response_data, model_answer, sql_command)]. *)
Definition interpret (raw_response : pystr)
  : list (pystr * json) * json * json :=
  let clean_response := strip_control raw_response in
  match json_loads clean_response with
  | Some (JObj response_data) =>
      (response_data,
       dict_get (U "model_answer") (JStr []) response_data,
       dict_get (U "sql") JNull response_data)
  | Some v =>
      ([], JStr (parse_error ++ U "'" ++ type_name v
                 ++ U "' object has no attribute 'get'"), JNull)
  | None =>
      ([], JStr (parse_error ++ env_json_error env clean_response), JNull)
  end.

(** Lines 281-287. *)
Definition merge_profile (response_data : list (pystr * json)) (o : LeadObj)
  : LeadObj :=
  mkObj (dict_get (U "user_name") (lead_name o) response_data)
        (dict_get (U "user_contact") (lead_contact o) response_data)
        (lead_log o).

Definition gpt_request (messages : list Message) : M pystr :=
  run emit (EvGpt messages);
  lift (env_gpt env messages).

(** Lines 253-294: what [step] does with the model's raw response. *)
Definition respond (lead : option Z) (raw_response : pystr) : M json :=
  (* 7 *)
  let parsed := interpret raw_response in
  let response_data := fst (fst parsed) in
  let model_answer := snd (fst parsed) in
  let sql_command := snd parsed in
  (* 8 *)
  run (if truthy sql_command && is_str sql_command then
         match sql_command with
         | JStr sql => do _ <- execute_sql sql; ret tt
         | _ => ret tt
         end
       else ret tt);
  (* 9 *)
  run (match lead with
       | Some _ => lead_assign (merge_profile response_data)
       | None => ret tt
       end);
  (* 10 *)
  run add_message (U "assistant") model_answer;
  run save_history lead;
  ret model_answer.

(** Lines 146-251, then [respond]. *)
Definition step (user_input : pystr) : M json :=
  (* 1 *)
  do loaded_pair <- load_history;
  let lead := fst loaded_pair in
  run set_history (snd loaded_pair);
  run add_message (U "user") (JStr user_input);
  (* 2, 3 *)
  let kb := knowledge user_input in
  (* 4 *)
  do st <- get_state;
  do dialog <- lift (dialog_text (dialog_history st));
  (* 5 *)
  do tail_messages <- profile_messages lead user_input;
  let messages := context_messages (fst kb) (snd kb) dialog ++ tail_messages in
  (* 6 *)
  do raw_response <- gpt_request messages;
  respond lead raw_response.

End Engine.

(** ** [app/routes/dialog.py]: [get_dialog_history]

    The handler of [GET /dialog/history/{client_id}], after the
    dependency [get_current_user] has let the request through.  What it
    returns is the [dict] the framework then validates against
    [DialogHistoryResponse]; what it raises is given by its text, the
    status code first, as [str()] of an [HTTPException] has it.

    Besides [json.JSONDecodeError] for a text that is not JSON,
    [json.loads] raises the errors of the interpreter for a text
    beyond its limits: [ValueError] for an [int] of more digits than
    [sys.get_int_max_str_digits()], [RecursionError] for a nesting too
    deep.  The handler does not catch these where it catches the
    former.  The limits are the interpreter's: [loads_error s] is the
    text of such an error when [json.loads] raises one on [s]. *)

(** [except HTTPException]: of the exceptions [read_lead_service]
    raises, the one of this class is its 404. *)
Definition is_http_exception (e : pystr) : bool := pystr_eqb e http_404.

Definition history_error : pystr :=
  U "500: Ошибка при получении истории диалога: ".

(** What [json.loads] raises for an argument that is no text. *)
Definition not_json_text (v : json) : pystr :=
  U "the JSON object must be str, bytes or bytearray, not " ++ type_name v.

(** Lines 44-81. *)
Definition get_dialog_history (loads_error : pystr -> option pystr)
    (client_id : Z) : M json :=
  do lead <- try_except
               (read_lead_service client_id)
               (fun e =>
                  if is_http_exception e then raise e
                  else raise (history_error ++ e));
  try_except
    (do history_data <-
       (if truthy (lead_log (obj lead)) then
          match lead_log (obj lead) with
          | JStr s =>
              match loads_error s with
              | Some e => raise e
              | None =>
                  match json_loads s with
                  | Some v => ret v
                  | None => ret (JArr [])        (* json.JSONDecodeError *)
                  end
              end
          | v => raise (not_json_text v)
          end
        else ret (JArr []));
     ret (JObj [(U "client_id", JInt client_id); (U "history", history_data)]))
    (fun e => raise (history_error ++ e)).

(** ** [app/services/base.py]: [Base.duplicate_headers_without_hashes]

    [re.sub(r"#{1,2} .+", replacer, text)]: the text is scanned from the
    left; where the pattern matches, the match is replaced and the scan
    goes on after it, otherwise the character is kept. *)

(** [.+]: the characters up to the next newline, which [.] does not
    match, and what is left. *)
Fixpoint until_newline (s : pystr) : pystr * pystr :=
  match s with
  | c :: r =>
      if c =? 10 then ([], s)
      else (c :: fst (until_newline r), snd (until_newline r))
  | [] => ([], [])
  end.

Definition dot_plus (s : pystr) : option (pystr * pystr) :=
  match until_newline s with
  | ([], _) => None
  | (m, rest) => Some (m, rest)
  end.

(** The pattern after its marks: a space, then [.+]. *)
Definition space_dot_plus (s : pystr) : option (pystr * pystr) :=
  match s with
  | c :: r =>
      if c =? 32 then
        match dot_plus r with
        | Some (m, rest) => Some (c :: m, rest)
        | None => None
        end
      else None
  | [] => None
  end.

(** The pattern at the head of [s]: [#{1,2}] takes two marks when it
    can and falls back to one when the rest does not match. *)
Definition match_header (s : pystr) : option (pystr * pystr) :=
  match s with
  | c1 :: r1 =>
      if c1 =? 35 then
        let one :=
          match space_dot_plus r1 with
          | Some (m, rest) => Some (c1 :: m, rest)
          | None => None
          end in
        match r1 with
        | c2 :: r2 =>
            if c2 =? 35 then
              match space_dot_plus r2 with
              | Some (m, rest) => Some (c1 :: c2 :: m, rest)
              | None => one
              end
            else one
        | [] => one
        end
      else None
  | [] => None
  end.

(** The replacement: the match, a newline, and the match without its
    [#] characters, stripped. *)
Definition replacer (m : pystr) : pystr :=
  m ++ [10] ++ strip (List.filter (fun c => negb (c =? 35)) m).

Fixpoint sub_headers (fuel : nat) (s : pystr) : pystr :=
  match fuel with
  | O => s
  | S fuel' =>
      match match_header s with
      | Some (m, rest) => replacer m ++ sub_headers fuel' rest
      | None =>
          match s with
          | c :: r => c :: sub_headers fuel' r
          | [] => []
          end
      end
  end.

(** Lines 57-62. *)
Definition duplicate_headers_without_hashes (text : pystr) : pystr :=
  sub_headers (length text) text.

(** ** [app/utils/log.py]: [Log.unescape_newlines], on JSON data *)

(** [obj.replace("\\n", "\n")]: a backslash followed by the letter n
    becomes a newline. *)
Fixpoint unescape_text (s : pystr) : pystr :=
  match s with
  | c :: r =>
      match r with
      | c' :: r' =>
          if (c =? 92) && (c' =? 110) then 10 :: unescape_text r'
          else c :: unescape_text r
      | [] => [c]
      end
  | [] => []
  end.

(** Lines 55-64. *)
Fixpoint unescape_newlines (obj : json) : json :=
  match obj with
  | JObj kv =>
      JObj (dict_of_pairs
              (map (fun p => (fst p, unescape_newlines (snd p))) kv))
  | JArr l => JArr (map unescape_newlines l)
  | JStr s => JStr (unescape_text s)
  | _ => obj
  end.

(** ** Notions the statements below use *)

(** The state in which a request meets the engine: a new session, and
    the empty history [__init__] sets. *)
Definition start (d : Database) : State := mkState d None [] [].

(** The history a stored row holds, decoded the way [load_history]
    decodes it: anything that is not the text of a JSON list counts as
    the empty history. *)
Definition stored_history (r : LeadRow) : list json :=
  match row_log r with
  | Some (c :: s) =>
      match json_loads (c :: s) with
      | Some (JArr h) => h
      | _ => []
      end
  | _ => []
  end.

(** The value [json.loads] gives back for what [json.dumps] printed:
    a float literal without fraction and exponent is read as an [int],
    and a repeated key of an object keeps its last value. *)
Definition norm_float (f : float_lit) : json :=
  let fr := match fl_frac f with
            | Some u => if is_nil u then None else Some u
            | None => None
            end in
  let ex := match fl_exp f with
            | Some (up, sg, u) => if is_nil u then None else Some (up, sg, u)
            | None => None
            end in
  match fr, ex with
  | None, None =>
      JInt (if fl_neg f then Z.opp (Z.of_N (fl_int f)) else Z.of_N (fl_int f))
  | _, _ => JFloat (FloatLit (fl_neg f) (fl_int f) fr ex)
  end.

Fixpoint norm (v : json) : json :=
  match v with
  | JFloat f => norm_float f
  | JArr l => JArr (map norm l)
  | JObj kv => JObj (dict_of_pairs (map (fun p => (fst p, norm (snd p))) kv))
  | _ => v
  end.

(** The prompt of a turn for a loaded lead. *)
Definition prompt (env : Env) (o : LeadObj) (dialog user_input : pystr)
  : list Message :=
  context_messages env (fst (knowledge env user_input))
                   (snd (knowledge env user_input)) dialog
  ++ profile_tail env o user_input.



(** The statement [execute_sql] is called with, if any: line 274. *)
Definition sql_to_run (sql : json) : option pystr :=
  match sql with
  | JStr (c :: s) => Some (c :: s)
  | _ => None
  end.

Definition db_after_sql (env : Env) (sql : json) (d : Database) : Database :=
  match sql_to_run sql with
  | Some s => match env_sql env s d with Some d' => d' | None => d end
  | None => d
  end.

Definition sql_events (sql : json) : list Event :=
  match sql_to_run sql with
  | Some s => [EvSql s]
  | None => []
  end.

Definition with_log (o : LeadObj) (text : pystr) : LeadObj :=
  mkObj (lead_name o) (lead_contact o) (JStr text).

(** The statements passed to [execute_sql], in order. *)
Definition sql_calls (tr : list Event) : list pystr :=
  flat_map (fun e => match e with EvSql s => [s] | _ => [] end) tr.

(** The writes to the lead table, in order. *)
Definition lead_writes (tr : list Event) : list Event :=
  List.filter (fun e => match e with
                   | EvUpdateLead _ _ | EvCreateLead _ _ => true
                   | _ => false
                   end) tr.

(** The prompts sent to the model, in order. *)
Definition sent_prompts (tr : list Event) : list (list Message) :=
  flat_map (fun e => match e with EvGpt m => [m] | _ => [] end) tr.

(** [None] or a [str]: what the response contract allows for
    [user_name] and [user_contact]. *)
Definition text_or_null (v : json) : bool :=
  match v with
  | JNull | JStr _ => true
  | _ => false
  end.

(** The text of the history a turn stores: the history it found, the
    entry of the input and the entry of the answer. *)
Definition turn_log (row : LeadRow) (input : pystr) (answer : json) : pystr :=
  json_dumps (JArr (stored_history row
                    ++ [entry (U "user") (JStr input);
                        entry (U "assistant") answer])).

(** A value the driver can encode: any but a text with a lone
    surrogate. *)
Definition encodable (v : json) : bool :=
  match v with
  | JStr s => negb (has_surrogate s)
  | _ => true
  end.

(** The row [clear_dialog] writes. *)
Definition cleared : LeadRow := mkRow None None (Some [91; 93]).

(** ** Three statements of the specification, as they are worded

    The merge of the profile, the knowledge sections of the prompt when
    the search fails, and the truncation of the history message, each
    as the specification states it, to be compared with what the code
    does. *)





(** C8 as the claim words it: the seventh message is the header and the
    trailing 2000 characters of the rendered history. *)
Definition history_message_as_stated (env : Env) (h : list json)
    (msgs : list Message) : Prop :=
  forall dlg, dialog_text env h = Ok dlg ->
    nth_error msgs 6 = Some (system (history_header ++ slice_last 2000 dlg)).

(** ** Concrete databases, collaborators and replies *)

(** JSON text written with an apostrophe wherever the text has a
    double quote. *)
Definition J (s : string) : pystr :=
  map (fun c => if c =? 39 then 34 else c) (U s).

(** The text of the [UnicodeEncodeError] of CPython's codec for UTF-8:
    it names the first surrogate and its position, or the positions of
    the run of surrogates that starts there. *)
Fixpoint surrogate_run (s : pystr) : nat :=
  match s with
  | c :: r => if is_surrogate c then S (surrogate_run r) else O
  | [] => O
  end.

Fixpoint first_surrogate (s : pystr) : option (nat * N * nat) :=
  match s with
  | c :: r =>
      if is_surrogate c then Some (O, c, S (surrogate_run r))
      else match first_surrogate r with
           | Some (i, x, n) => Some (S i, x, n)
           | None => None
           end
  | [] => None
  end.

Definition hex4_chars (c : N) : pystr :=
  [hexdigit (c / 4096); hexdigit ((c / 256) mod 16);
   hexdigit ((c / 16) mod 16); hexdigit (c mod 16)].

Definition utf8_encode_error (s : pystr) : pystr :=
  match first_surrogate s with
  | Some (i, c, 1%nat) =>
      U "'utf-8' codec can't encode character '" ++ [92; 117] ++ hex4_chars c
      ++ U "' in position " ++ N_chars (N.of_nat i)
      ++ U ": surrogates not allowed"
  | Some (i, _, n) =>
      U "'utf-8' codec can't encode characters in position "
      ++ N_chars (N.of_nat i) ++ U "-" ++ N_chars (N.of_nat (i + n - 1))
      ++ U ": surrogates not allowed"
  | None => []
  end.

Definition demo_env (base : option KnowledgeBase) (reply : result pystr) : Env :=
  mkEnv (U "You are Astra.") (U "2025-10-04") 123456%Z (Ok []) base
        (fun _ => reply) (fun _ d => Some d) (fun _ => U "<value>")
        (fun _ => U "Expecting value: line 1 column 1 (char 0)")
        (fun _ => Raise (U "unsupported type"))
        utf8_encode_error.

(** One lead, number 7, named Ann, without contact and history. *)
Definition ann_row : LeadRow := mkRow (Some (U "Ann")) None None.
Definition ann_db : Database := mkDb {[ 7%Z := ann_row ]} 8%Z.

(** Lead 7 with a stored history of two entries: a question of 2000
    letters, and an answer that holds, as the JSON escape of it, the
    first half of a surrogate pair.  The rendering of the history is
    longer than the 2000 characters the prompt takes of it, so the
    answer is not in the prompt. *)
Definition surrogate_log_db : Database :=
  mkDb {[ 7%Z := mkRow (Some (U "Ann")) None
                       (Some (J "[{'role': 'user', 'content': '"
                              ++ repeat 97 2000
                              ++ J "'}, {'role': 'assistant', 'content': '\ud83d'}]")) ]}
       8%Z.

(** One lead, the administrator, under key 1; the next key is 2. *)
Definition admin_db : Database :=
  mkDb {[ 1%Z := mkRow (Some (U "Administrator")) None None ]} 2%Z.


Definition reply_hi : pystr := J "{'model_answer': 'hi'}".


Definition reply_not_json : pystr := U "Sorry, I cannot answer that.".



Definition long_input : pystr := repeat 97 1999 ++ [98].

(** ** Notions for the proofs about the [json] module *)

Section JsonInd.
Variable P : json -> Prop.
Hypothesis Hnull : P JNull.
Hypothesis Hbool : forall b, P (JBool b).
Hypothesis Hint : forall z, P (JInt z).
Hypothesis Hfloat : forall f, P (JFloat f).
Hypothesis Hnan : P JNaN.
Hypothesis Hinf : forall b, P (JInf b).
Hypothesis Hstr : forall s, P (JStr s).
Hypothesis Harr : forall l, Forall P l -> P (JArr l).
Hypothesis Hobj : forall kv, Forall (fun p => P (snd p)) kv -> P (JObj kv).

Fixpoint json_ind (v : json) : P v :=
  match v with
  | JNull => Hnull
  | JBool b => Hbool b
  | JInt z => Hint z
  | JFloat f => Hfloat f
  | JNaN => Hnan
  | JInf b => Hinf b
  | JStr s => Hstr s
  | JArr l =>
      Harr l ((fix all (l : list json) : Forall P l :=
                 match l with
                 | [] => @List.Forall_nil _ P
                 | x :: r => @List.Forall_cons _ P x r (json_ind x) (all r)
                 end) l)
  | JObj kv =>
      Hobj kv ((fix all (kv : list (pystr * json))
                  : Forall (fun p => P (snd p)) kv :=
                  match kv with
                  | [] => @List.Forall_nil _ _
                  | p :: r => @List.Forall_cons _ _ p r (json_ind (snd p)) (all r)
                  end) kv)
  end.
End JsonInd.

(** What may follow a number without being read as part of it. *)
Definition ends_number (rest : pystr) : Prop :=
  match rest with
  | [] => True
  | c :: _ => digit_of c = None /\ c <> 46 /\ c <> 101 /\ c <> 69
  end.

Definition no_digit (rest : pystr) : Prop :=
  match rest with
  | [] => True
  | c :: _ => digit_of c = None
  end.

(** What may follow the fraction of a number. *)
Definition ends_frac (rest : pystr) : Prop :=
  match rest with
  | [] => True
  | c :: _ => digit_of c = None /\ c <> 46
  end.

(** The first character of a printed number. *)
Definition number_head (s : pystr) : Prop :=
  exists c r, s = c :: r /\ (c = 45 \/ is_Some (digit_of c)).

(** The nesting of calls [parse_value] needs for a value. *)
Fixpoint need (v : json) : nat :=
  match v with
  | JArr l => S (fold_right (fun x acc => S (Nat.max (need x) acc)) O l)
  | JObj kv => S (fold_right (fun p acc => S (Nat.max (need (snd p)) acc)) O kv)
  | _ => 1%nat
  end.

Definition need_items (l : list json) : nat :=
  fold_right (fun x acc => S (Nat.max (need x) acc)) O l.

Definition need_members (kv : list (pystr * json)) : nat :=
  fold_right (fun p acc => S (Nat.max (need (snd p)) acc)) O kv.

(** A member of a printed object, and the same without its opening quote. *)
Definition member_chars (p : pystr * json) : pystr :=
  str_chars (fst p) ++ [58; 32] ++ json_dumps (snd p).

Definition member_body (p : pystr * json) : pystr :=
  flat_map escape_char (fst p) ++ 34 :: 58 :: 32 :: json_dumps (snd p).

Fixpoint members_body (kv : list (pystr * json)) : pystr :=
  match kv with
  | [] => []
  | [p] => member_body p
  | p :: rest => member_body p ++ 44 :: 32 :: 34 :: members_body rest
  end.

Definition parses (v : json) : Prop :=
  forall fuel rest, (need v <= fuel)%nat -> ends_number rest ->
    parse_value fuel (json_dumps v ++ rest) = Some (norm v, rest).

(** Distinct keys. *)
Fixpoint uniq (d : list (pystr * json)) : Prop :=
  match d with
  | [] => True
  | (k, _) :: r => dict_find k r = None /\ uniq r
  end.

Definition normal_values (d : list (pystr * json)) : Prop :=
  Forall (fun p => norm (snd p) = snd p) d.

(** ** Notions and examples of the further facts *)

(** The column an update leaves: the value of a field that is set, the
    old value for a field that is not. *)
Definition updated_column (f : option (option pystr)) (old : option pystr)
  : option pystr :=
  match f with Some v => v | None => old end.

(** A field of a schema object the driver can encode, and a schema
    object all of whose fields it can. *)
Definition field_encodable (f : option (option pystr)) : bool :=
  match f with
  | Some (Some s) => negb (has_surrogate s)
  | _ => true
  end.

Definition lead_encodable (u : LeadBase) : bool :=
  field_encodable (lb_name u) && field_encodable (lb_contact u)
  && field_encodable (lb_log u).

(** A match found in the text before a newline, seen from the whole
    text. *)
Definition before_newline (b : pystr) (found : option (pystr * pystr))
  : option (pystr * pystr) :=
  match found with
  | Some (m, rest) => Some (m, rest ++ 10 :: b)
  | None => None
  end.

(** The [dict] the history route returns. *)
Definition history_body (cid : Z) (history : json) : json :=
  JObj [(U "client_id", JInt cid); (U "history", history)].

(** No backslash is followed by the letter n. *)
Fixpoint no_escape (s : pystr) : bool :=
  match s with
  | c :: r =>
      match r with
      | c' :: _ => negb ((c =? 92) && (c' =? 110)) && no_escape r
      | [] => true
      end
  | [] => true
  end.

(** A function on the values of a [dict]'s items. *)
Definition on_values (f : json -> json) (p : pystr * json) : pystr * json :=
  (fst p, f (snd p)).



Definition reply_list : pystr := U "[1, 2]".

(** Lead 7 with a log that is a JSON list but holds no message. *)
Definition stray_log_db : Database :=
  mkDb {[ 7%Z := mkRow (Some (U "Ann")) None (Some (U "[1]")) ]} 8%Z.

(** ** Tactics *)

Ltac run_monad :=
  repeat (progress
    (cbv beta iota zeta delta
       [bind ret raise lift try_except get_state set_history set_db
        set_session emit add_message gpt_request lead_attrs lead_assign
        profile_messages execute_sql track start select_lead
        read_lead_service update_lead_service commit];
     cbn [fst snd db session dialog_history trace obj loaded leads lead_seq])).

(** Splitting an equation between outcomes without normalising it. *)
Ltac outcome H :=
  let Hr := fresh "Hres" in
  let Hs := fresh "Hst" in
  pose proof (f_equal fst H) as Hr; pose proof (f_equal snd H) as Hs;
  cbn [fst snd] in Hr, Hs; clear H;
  first [subst | idtac].

(** * Facts about text *)

Lemma pystr_eqb_refl s : pystr_eqb s s = true.
Proof. induction s as [|c s IH]; [reflexivity|]. simpl. rewrite N.eqb_refl. exact IH. Qed.

Lemma pystr_eqb_eq a b : pystr_eqb a b = true <-> a = b.
Proof.
  split; [|intros ->; apply pystr_eqb_refl].
  revert b. induction a as [|x a IH]; intros [|y b] H; simpl in H;
    try discriminate; [reflexivity|].
  apply andb_true_iff in H as [Hx Hr]. apply N.eqb_eq in Hx.
  f_equal; auto.
Qed.

(** * Facts about the [json] module

    Reading back what [json_dumps] printed. *)

Lemma ends_number_no_digit rest : ends_number rest -> no_digit rest.
Proof. destruct rest; simpl; tauto. Qed.

Lemma scan_digits_stop rest : no_digit rest -> scan_digits rest = (Decimal.Nil, rest).
Proof. destruct rest as [|c r]; simpl; [reflexivity|]. intros ->. reflexivity. Qed.

Lemma scan_digits_chars u rest :
  no_digit rest -> scan_digits (uint_chars u ++ rest) = (u, rest).
Proof.
  intros H. induction u; simpl;
    [apply scan_digits_stop; exact H | rewrite IHu; reflexivity ..].
Qed.

Lemma to_uint_canonical n :
  N.to_uint n = Decimal.D0 Decimal.Nil
  \/ (N.to_uint n <> Decimal.Nil /\ forall u, N.to_uint n <> Decimal.D0 u).
Proof.
  assert (Hn : Decimal.unorm (N.to_uint n) = N.to_uint n).
  { rewrite <- DecimalN.Unsigned.to_of, DecimalN.Unsigned.of_to. reflexivity. }
  destruct (N.to_uint n) as [|u| | | | | | | | | ] eqn:E;
    try (right; split; [discriminate | intros ?; discriminate]).
  left. rewrite DecimalFacts.unorm_D0 in Hn. unfold Decimal.unorm in Hn.
  destruct (Decimal.nzhead u) eqn:Hz;
    try (exfalso; revert Hz; rewrite Hn; apply DecimalFacts.nzhead_nonzero).
  congruence.
Qed.

Lemma scan_int_part_chars n rest :
  no_digit rest ->
  scan_int_part (N_chars n ++ rest) = Some (N.to_uint n, rest).
Proof.
  intros H. unfold N_chars.
  destruct (to_uint_canonical n) as [->|[Hnil Hz]]; [reflexivity|].
  pose proof (scan_digits_chars (N.to_uint n) rest H) as Hs.
  destruct (N.to_uint n) as [|u| | | | | | | | | ];
    try congruence; try (exfalso; eapply Hz; reflexivity);
    unfold scan_int_part; cbn [uint_chars app N.eqb Pos.eqb] in Hs |- *;
    rewrite Hs; reflexivity.
Qed.

Lemma ends_number_frac rest : ends_number rest -> ends_frac rest.
Proof. destruct rest; simpl; tauto. Qed.

Lemma ends_frac_no_digit rest : ends_frac rest -> no_digit rest.
Proof. destruct rest; simpl; tauto. Qed.

Lemma scan_frac_none rest : ends_frac rest -> scan_frac rest = (None, rest).
Proof.
  destruct rest as [|c r]; simpl; [reflexivity|]. intros (_ & H).
  apply N.eqb_neq in H. rewrite H. reflexivity.
Qed.

Lemma scan_exp_none rest : ends_number rest -> scan_exp rest = (None, rest).
Proof.
  destruct rest as [|c r]; simpl; [reflexivity|]. intros (_ & _ & H1 & H2).
  apply N.eqb_neq in H1, H2. rewrite H1, H2. reflexivity.
Qed.

Lemma no_digit_uint_chars u rest :
  is_nil u = false -> exists c r, uint_chars u ++ rest = c :: r
    /\ is_Some (digit_of c) /\ c <> 43 /\ c <> 45 /\ c <> 46.
Proof.
  destruct u; try discriminate; intros _; eexists _, _;
    (split; [reflexivity|]); (split; [eexists; reflexivity|]);
    repeat split; discriminate.
Qed.

Lemma scan_frac_chars fr rest :
  ends_frac rest ->
  scan_frac (frac_chars fr ++ rest)
  = (match fr with
     | Some u => if is_nil u then None else Some u
     | None => None
     end, rest).
Proof.
  intros H. destruct fr as [u|]; [|apply scan_frac_none, H].
  unfold frac_chars. destruct (is_nil u) eqn:Hu; [apply scan_frac_none, H|].
  cbn [app scan_frac N.eqb Pos.eqb].
  rewrite scan_digits_chars by (apply ends_frac_no_digit, H).
  destruct u; try discriminate; reflexivity.
Qed.

Lemma scan_exp_chars ex rest :
  ends_number rest ->
  scan_exp (exp_chars ex ++ rest)
  = (match ex with
     | Some (up, sg, u) => if is_nil u then None else Some (up, sg, u)
     | None => None
     end, rest).
Proof.
  intros H. destruct ex as [[[up sg] u]|]; [|apply scan_exp_none, H].
  unfold exp_chars. destruct (is_nil u) eqn:Hu; [apply scan_exp_none, H|].
  assert (Hd : scan_digits (uint_chars u ++ rest) = (u, rest))
    by (apply scan_digits_chars, ends_number_no_digit, H).
  destruct (no_digit_uint_chars u rest Hu) as (c & r & Hc & _ & H43 & H45 & _).
  apply N.eqb_neq in H43, H45.
  destruct up, sg as [[|]|]; cbn [app scan_exp N.eqb Pos.eqb orb];
    rewrite <- ?app_assoc; cbn [app];
    try (rewrite Hd; destruct u; try discriminate; reflexivity);
    rewrite Hc, H43, H45, <- Hc, Hd; destruct u; try discriminate; reflexivity.
Qed.

Lemma scan_unsigned_chars neg n fr ex rest :
  ends_number rest ->
  scan_unsigned neg (N_chars n ++ frac_chars fr ++ exp_chars ex ++ rest)
  = Some (norm_float (FloatLit neg n fr ex), rest).
Proof.
  intros H. unfold scan_unsigned.
  assert (Hex : ends_frac (exp_chars ex ++ rest)).
  { destruct ex as [[[up sg] u]|]; [|apply ends_number_frac, H].
    unfold exp_chars. destruct (is_nil u); [apply ends_number_frac, H|].
    destruct up; cbn; split; (reflexivity || discriminate). }
  assert (Hfr : no_digit (frac_chars fr ++ exp_chars ex ++ rest)).
  { destruct fr as [u|]; [|apply ends_frac_no_digit, Hex]. unfold frac_chars.
    destruct (is_nil u); [apply ends_frac_no_digit, Hex|]. reflexivity. }
  rewrite scan_int_part_chars by exact Hfr.
  rewrite scan_frac_chars by exact Hex.
  rewrite scan_exp_chars by exact H.
  rewrite DecimalN.Unsigned.of_to. unfold norm_float. cbn [fl_frac fl_exp fl_neg fl_int].
  destruct fr as [u|]; [destruct (is_nil u)|];
    (destruct ex as [[[up sg] u']|]; [destruct (is_nil u')|]); reflexivity.
Qed.

Lemma N_chars_head n rest :
  exists c r, N_chars n ++ rest = c :: r
    /\ is_Some (digit_of c) /\ c <> 43 /\ c <> 45 /\ c <> 46.
Proof.
  apply no_digit_uint_chars.
  destruct (to_uint_canonical n) as [->|[Hnil _]]; [reflexivity|].
  destruct (N.to_uint n); [congruence|reflexivity ..].
Qed.

Lemma scan_number_float f rest :
  ends_number rest ->
  scan_number (float_chars f ++ rest) = Some (norm_float f, rest).
Proof.
  intros H. destruct f as [neg n fr ex]. unfold float_chars, scan_number.
  cbn [fl_neg fl_int fl_frac fl_exp]. rewrite <- !app_assoc.
  destruct neg; cbn [app scan_sign N.eqb Pos.eqb].
  - apply scan_unsigned_chars, H.
  - destruct (N_chars_head n (frac_chars fr ++ exp_chars ex ++ rest))
      as (c & r & Hc & _ & _ & H45 & _).
    rewrite Hc. cbn [scan_sign]. apply N.eqb_neq in H45. rewrite H45, <- Hc.
    apply scan_unsigned_chars, H.
Qed.

Lemma Z_chars_float z :
  Z_chars z = float_chars (FloatLit (z <? 0)%Z (Z.abs_N z) None None)
  /\ norm_float (FloatLit (z <? 0)%Z (Z.abs_N z) None None) = JInt z.
Proof.
  destruct z; split; try reflexivity; unfold float_chars, Z_chars;
    cbn [fl_neg fl_int fl_frac fl_exp frac_chars exp_chars Z.ltb Z.compare
         Z.abs_N Z.to_N Z.abs];
    rewrite ?app_nil_r; try reflexivity.
Qed.

Lemma scan_number_int z rest :
  ends_number rest ->
  scan_number (Z_chars z ++ rest) = Some (JInt z, rest).
Proof.
  intros H. destruct (Z_chars_float z) as [-> <-].
  apply scan_number_float, H.
Qed.

Lemma float_chars_head f rest : number_head (float_chars f ++ rest).
Proof.
  destruct f as [neg n fr ex]. unfold float_chars.
  cbn [fl_neg fl_int fl_frac fl_exp]. rewrite <- !app_assoc.
  destruct neg.
  - eexists _, _. split; [reflexivity|]. left. reflexivity.
  - destruct (N_chars_head n (frac_chars fr ++ exp_chars ex ++ rest))
      as (c & r & Hc & Hd & _).
    exists c, r. split; [exact Hc|]. right. exact Hd.
Qed.

Lemma parse_value_number fuel s res :
  number_head s -> scan_number s = Some res ->
  parse_value (S fuel) s = Some res.
Proof.
  intros (c & r & -> & Hc) Hs.
  assert (Hne : forall k, digit_of k = None -> k <> 45 -> c <> k).
  { intros k Hk Hk' ->. destruct Hc as [Hc|[d Hd]]; congruence. }
  cbn [parse_value].
  rewrite (proj2 (N.eqb_neq c 34)), (proj2 (N.eqb_neq c 123)),
    (proj2 (N.eqb_neq c 91)) by (apply Hne; [reflexivity|discriminate]).
  unfold scan_atom.
  assert (Hp : forall k p, digit_of k = None -> k <> 45 ->
                 strip_prefix (k :: p) (c :: r) = None).
  { intros k p Hk Hk'. cbn [strip_prefix].
    rewrite (proj2 (N.eqb_neq k c)); [reflexivity|].
    intros E. apply (Hne k Hk Hk'). symmetry. exact E. }
  change (U "null") with (110 :: U "ull").
  change (U "true") with (116 :: U "rue").
  change (U "false") with (102 :: U "alse").
  rewrite !Hp by (reflexivity || discriminate).
  rewrite Hs. reflexivity.
Qed.

Lemma parse_value_int fuel z rest :
  ends_number rest ->
  parse_value (S fuel) (Z_chars z ++ rest) = Some (JInt z, rest).
Proof.
  intros H. apply parse_value_number; [|apply scan_number_int, H].
  destruct (Z_chars_float z) as [-> _]. apply float_chars_head.
Qed.

Lemma parse_value_float fuel f rest :
  ends_number rest ->
  parse_value (S fuel) (float_chars f ++ rest) = Some (norm_float f, rest).
Proof.
  intros H. apply parse_value_number; [apply float_chars_head|].
  apply scan_number_float, H.
Qed.

Lemma parse_value_literals fuel rest :
  parse_value (S fuel) (U "null" ++ rest) = Some (JNull, rest)
  /\ parse_value (S fuel) (U "true" ++ rest) = Some (JBool true, rest)
  /\ parse_value (S fuel) (U "false" ++ rest) = Some (JBool false, rest)
  /\ parse_value (S fuel) (U "NaN" ++ rest) = Some (JNaN, rest)
  /\ parse_value (S fuel) (U "Infinity" ++ rest) = Some (JInf false, rest)
  /\ parse_value (S fuel) (U "-Infinity" ++ rest) = Some (JInf true, rest).
Proof. repeat split; reflexivity. Qed.

Lemma hex4_control c :
  c < 32 -> hex4 48 48 (hexdigit (c / 16)) (hexdigit (c mod 16)) = Some c.
Proof.
  intros H. destruct c as [|p]; [reflexivity|].
  do 5 (try destruct p as [p|p|]); try reflexivity; lia.
Qed.

Lemma scanstring_u h1 h2 h3 h4 u r2 :
  hex4 h1 h2 h3 h4 = Some u -> is_high_surrogate u = false ->
  scanstring (92 :: 117 :: h1 :: h2 :: h3 :: h4 :: r2)
  = cons_scanned u (scanstring r2).
Proof.
  intros Hh Hs. cbn [scanstring N.eqb Pos.eqb]. rewrite Hh, Hs.
  destruct r2 as [|b [|e2 [|k1 [|k2 [|k3 [|k4 r3]]]]]]; try reflexivity.
  cbn [andb]. destruct (hex4 k1 k2 k3 k4); reflexivity.
Qed.

Lemma scanstring_escape s rest :
  scanstring (flat_map escape_char s ++ 34 :: rest) = Some (s, rest).
Proof.
  induction s as [|c s IH]; [reflexivity|].
  cbn [flat_map]. rewrite <- app_assoc. unfold escape_char at 1.
  destruct (N.eqb_spec c 34) as [->|H34];
    [cbn [app scanstring N.eqb Pos.eqb backslash]; rewrite IH; reflexivity|].
  destruct (N.eqb_spec c 92) as [->|H92];
    [cbn [app scanstring N.eqb Pos.eqb backslash]; rewrite IH; reflexivity|].
  destruct (N.eqb_spec c 10) as [->|H10];
    [cbn [app scanstring N.eqb Pos.eqb backslash]; rewrite IH; reflexivity|].
  destruct (N.eqb_spec c 13) as [->|H13];
    [cbn [app scanstring N.eqb Pos.eqb backslash]; rewrite IH; reflexivity|].
  destruct (N.eqb_spec c 9) as [->|H9];
    [cbn [app scanstring N.eqb Pos.eqb backslash]; rewrite IH; reflexivity|].
  destruct (N.eqb_spec c 8) as [->|H8];
    [cbn [app scanstring N.eqb Pos.eqb backslash]; rewrite IH; reflexivity|].
  destruct (N.eqb_spec c 12) as [->|H12];
    [cbn [app scanstring N.eqb Pos.eqb backslash]; rewrite IH; reflexivity|].
  destruct (N.ltb_spec c 32) as [Hlt|Hge].
  - cbn [app].
    rewrite (scanstring_u _ _ _ _ c) by
      (apply hex4_control, Hlt
       || (unfold is_high_surrogate; apply andb_false_iff; left;
           apply N.leb_gt; lia)).
    rewrite IH. reflexivity.
  - cbn [app scanstring].
    rewrite (proj2 (N.eqb_neq c 34) H34), (proj2 (N.eqb_neq c 92) H92),
      (proj2 (N.ltb_ge c 32) Hge), IH.
    reflexivity.
Qed.

Lemma skip_ws_head c r : is_json_ws c = false -> skip_ws (c :: r) = c :: r.
Proof. intros H. cbn [skip_ws]. rewrite H. reflexivity. Qed.

Lemma digit_not_ws c : is_Some (digit_of c) -> is_json_ws c = false /\ c <> 93.
Proof.
  intros [d Hd]. unfold is_json_ws.
  destruct (N.eqb_spec c 32) as [->|]; [discriminate|].
  destruct (N.eqb_spec c 9) as [->|]; [discriminate|].
  destruct (N.eqb_spec c 10) as [->|]; [discriminate|].
  destruct (N.eqb_spec c 13) as [->|]; [discriminate|].
  split; [reflexivity|]. intros ->. discriminate.
Qed.

Lemma dumps_head v rest :
  exists c r, json_dumps v ++ rest = c :: r /\ is_json_ws c = false /\ c <> 93.
Proof.
  assert (Hnum : forall s, number_head s ->
            exists c r, s = c :: r /\ is_json_ws c = false /\ c <> 93).
  { intros s (c & r & -> & [->|Hd]).
    - eexists _, _. repeat split. discriminate.
    - exists c, r. split; [reflexivity|]. apply digit_not_ws, Hd. }
  destruct v as [|[|]|z|f| |[|]|s|l|kv];
    try (eexists _, _; split; [reflexivity|]; split; [reflexivity|discriminate]).
  - apply Hnum. cbn [json_dumps]. destruct (Z_chars_float z) as [-> _].
    apply float_chars_head.
  - apply Hnum, float_chars_head.
Qed.

Lemma skip_ws_dumps v rest : skip_ws (json_dumps v ++ rest) = json_dumps v ++ rest.
Proof.
  destruct (dumps_head v rest) as (c & r & -> & Hws & _).
  apply skip_ws_head, Hws.
Qed.

Lemma join_cons2 sep p q rest :
  join sep (p :: q :: rest) = p ++ sep ++ join sep (q :: rest).
Proof. reflexivity. Qed.

Lemma parse_items_dumps l :
  Forall parses l -> l <> [] ->
  forall fuel rest, (need_items l <= fuel)%nat ->
    parse_items fuel (join [44; 32] (map json_dumps l) ++ 93 :: rest)
    = Some (map norm l, rest).
Proof.
  induction 1 as [|x l Hx Hl IH]; [congruence|]. intros _ fuel rest Hfuel.
  cbn [need_items fold_right] in Hfuel. fold (need_items l) in Hfuel.
  destruct fuel as [|f]; [lia|]. cbn [parse_items].
  destruct l as [|y l'].
  - cbn [map join]. rewrite Hx by (lia || (cbn; repeat split; (reflexivity || discriminate))).
    reflexivity.
  - cbn [map]. rewrite join_cons2, <- !app_assoc.
    rewrite Hx by (lia || (cbn; repeat split; (reflexivity || discriminate))).
    cbn [app skip_ws is_json_ws N.eqb Pos.eqb orb].
    change (json_dumps y :: map json_dumps l') with (map json_dumps (y :: l')).
    assert (Hy : skip_ws (join [44; 32] (map json_dumps (y :: l')) ++ 93 :: rest)
                 = join [44; 32] (map json_dumps (y :: l')) ++ 93 :: rest).
    { destruct l'; cbn [map]; [cbn [join]|rewrite join_cons2, <- !app_assoc];
        apply skip_ws_dumps. }
    rewrite Hy, IH by (congruence || lia). reflexivity.
Qed.

Lemma member_chars_body p : member_chars p = 34 :: member_body p.
Proof.
  unfold member_chars, member_body, str_chars. cbn [app].
  rewrite <- app_assoc. reflexivity.
Qed.

Lemma join_members kv :
  kv <> [] -> join [44; 32] (map member_chars kv) = 34 :: members_body kv.
Proof.
  induction kv as [|p kv IH]; [congruence|]. intros _.
  destruct kv as [|q kv'].
  - cbn [map join members_body]. apply member_chars_body.
  - cbn [map]. rewrite join_cons2.
    change (member_chars q :: map member_chars kv')
      with (map member_chars (q :: kv')).
    rewrite IH by congruence. rewrite member_chars_body.
    cbn [members_body app]. reflexivity.
Qed.

Lemma parse_members_dumps kv :
  Forall (fun p => parses (snd p)) kv -> kv <> [] ->
  forall fuel rest, (need_members kv <= fuel)%nat ->
    parse_members fuel (members_body kv ++ 125 :: rest)
    = Some (map (fun p => (fst p, norm (snd p))) kv, rest).
Proof.
  induction 1 as [|[k v] kv Hv Hkv IH]; [congruence|]. intros _ fuel rest Hfuel.
  cbn [need_members fold_right snd] in Hfuel. fold (need_members kv) in Hfuel.
  cbn [snd] in Hv.
  destruct fuel as [|f]; [lia|]. cbn [parse_members].
  destruct kv as [|q kv'].
  - cbn [members_body map fst snd]. unfold member_body. cbn [fst snd].
    rewrite <- app_assoc. cbn [app].
    change (58 :: 32 :: json_dumps v ++ 125 :: rest)
      with (58 :: 32 :: (json_dumps v ++ 125 :: rest)).
    rewrite scanstring_escape.
    cbn [skip_ws is_json_ws N.eqb Pos.eqb orb].
    rewrite skip_ws_dumps.
    rewrite Hv by (lia || (cbn; repeat split; (reflexivity || discriminate))).
    reflexivity.
  - cbn [members_body map fst snd]. unfold member_body at 1. cbn [fst snd].
    rewrite <- !app_assoc. cbn [app]. rewrite <- ?app_assoc.
    rewrite scanstring_escape.
    cbn [skip_ws is_json_ws N.eqb Pos.eqb orb].
    rewrite skip_ws_dumps.
    rewrite Hv by (lia || (cbn; repeat split; (reflexivity || discriminate))).
    cbn [app skip_ws is_json_ws N.eqb Pos.eqb orb].
    rewrite IH by (congruence || lia). reflexivity.
Qed.

Theorem parse_value_dumps v : parses v.
Proof.
  induction v as [|b|z|f| |b|s|l IH|kv IH] using json_ind;
    intros fuel rest Hfuel Hrest;
    (destruct fuel as [|fuel]; [cbn in Hfuel; lia|]).
  - apply parse_value_literals.
  - destruct b; apply parse_value_literals.
  - apply parse_value_int, Hrest.
  - apply parse_value_float, Hrest.
  - apply parse_value_literals.
  - destruct b; apply parse_value_literals.
  - cbn [json_dumps norm]. unfold str_chars. cbn [app parse_value N.eqb Pos.eqb].
    rewrite <- app_assoc. cbn [app]. rewrite scanstring_escape. reflexivity.
  - cbn [need] in Hfuel. fold (need_items l) in Hfuel.
    cbn [json_dumps norm app parse_value N.eqb Pos.eqb]. rewrite <- app_assoc.
    cbn [app]. destruct l as [|x l'].
    + reflexivity.
    + destruct (dumps_head x
                  (match l' with
                   | [] => []
                   | _ => [44; 32] ++ join [44; 32] (map json_dumps l')
                   end ++ 93 :: rest)) as (c & r & Hc & Hws & H93).
      assert (E : join [44; 32] (map json_dumps (x :: l')) ++ 93 :: rest = c :: r).
      { rewrite <- Hc. destruct l'; cbn [map]; [reflexivity|].
        rewrite join_cons2, <- !app_assoc. reflexivity. }
      rewrite E, (skip_ws_head _ _ Hws), (proj2 (N.eqb_neq c 93) H93), <- E.
      rewrite (parse_items_dumps (x :: l') IH) by (congruence || lia).
      reflexivity.
  - cbn [need] in Hfuel. fold (need_members kv) in Hfuel.
    cbn [json_dumps norm app parse_value N.eqb Pos.eqb].
    change (map (fun p => str_chars p.1 ++ [58; 32] ++ json_dumps p.2) kv)
      with (map member_chars kv).
    rewrite <- app_assoc. cbn [app]. destruct kv as [|p kv'].
    + reflexivity.
    + rewrite join_members by congruence.
      cbn [app skip_ws is_json_ws N.eqb Pos.eqb orb].
      rewrite (parse_members_dumps (p :: kv') IH) by (congruence || lia).
      reflexivity.
Qed.

Lemma length_join_cons2 sep p q rest :
  length (join sep (p :: q :: rest))
  = (length p + length sep + length (join sep (q :: rest)))%nat.
Proof. rewrite join_cons2, !length_app. lia. Qed.

Lemma need_items_bound l :
  Forall (fun x => (need x <= 2 * length (json_dumps x))%nat) l ->
  (need_items l <= 2 * length (join [44%N; 32%N] (map json_dumps l)) + 1)%nat.
Proof.
  induction 1 as [|x l Hx Hl IH]; [cbn; lia|].
  cbn [need_items fold_right]. fold (need_items l).
  destruct l as [|y l'].
  - cbn [map join need_items fold_right]. lia.
  - cbn [map]. rewrite length_join_cons2.
    change (json_dumps y :: map json_dumps l') with (map json_dumps (y :: l')).
    cbn [length]. lia.
Qed.

Lemma need_members_bound kv :
  Forall (fun p => (need (snd p) <= 2 * length (json_dumps (snd p)))%nat) kv ->
  (need_members kv <= 2 * length (join [44%N; 32%N] (map member_chars kv)) + 1)%nat.
Proof.
  induction 1 as [|p kv Hp Hkv IH]; [cbn; lia|].
  cbn [need_members fold_right]. fold (need_members kv).
  assert (Hm : (length (json_dumps (snd p)) <= length (member_chars p))%nat)
    by (unfold member_chars; rewrite !length_app; lia).
  destruct kv as [|q kv'].
  - cbn [map join need_members fold_right]. lia.
  - cbn [map]. rewrite length_join_cons2.
    change (member_chars q :: map member_chars kv')
      with (map member_chars (q :: kv')).
    cbn [length]. lia.
Qed.

Lemma need_bound v : (need v <= 2 * length (json_dumps v))%nat.
Proof.
  induction v as [|b|z|f| |b|s|l IH|kv IH] using json_ind;
    try (cbn [need json_dumps str_chars length]; lia);
    try (destruct b; vm_compute; lia).
  - vm_compute; lia.
  - destruct (dumps_head (JInt z) []) as (c & r & Hc & _).
    rewrite app_nil_r in Hc. rewrite Hc. cbn [need length]. lia.
  - destruct (dumps_head (JFloat f) []) as (c & r & Hc & _).
    rewrite app_nil_r in Hc. rewrite Hc. cbn [need length]. lia.
  - vm_compute; lia.
  - cbn [need]. fold (need_items l). pose proof (need_items_bound l IH).
    cbn [json_dumps length]. rewrite length_app. cbn [length]. lia.
  - cbn [need]. fold (need_members kv). pose proof (need_members_bound kv IH).
    cbn [json_dumps length].
    change (map (fun p => str_chars p.1 ++ [58; 32] ++ json_dumps p.2) kv)
      with (map member_chars kv).
    rewrite length_app. cbn [length]. lia.
Qed.

(** [json.loads(json.dumps(v))] is [v], up to what [norm] describes. *)
Theorem json_loads_dumps v : json_loads (json_dumps v) = Some (norm v).
Proof.
  unfold json_loads.
  rewrite <- (app_nil_r (json_dumps v)) at 2. rewrite skip_ws_dumps.
  rewrite parse_value_dumps; [reflexivity| |exact I].
  pose proof (need_bound v). lia.
Qed.

(** ** What [json_loads] returns is left as it is by [norm] *)

Lemma scan_frac_some s u r : scan_frac s = (Some u, r) -> is_nil u = false.
Proof.
  destruct s as [|c s]; cbn [scan_frac]; [discriminate|].
  destruct (c =? 46); [|discriminate].
  destruct (scan_digits s) as [[] r']; intros E; try discriminate;
    injection E as <- <-; reflexivity.
Qed.

Lemma scan_exp_some s up sg u r :
  scan_exp s = (Some (up, sg, u), r) -> is_nil u = false.
Proof.
  destruct s as [|c s]; cbn [scan_exp]; [discriminate|].
  destruct ((c =? 101) || (c =? 69)); [|discriminate].
  destruct (match s with
            | [] => (None, s)
            | c1 :: r1 =>
                if c1 =? 43 then (Some false, r1)
                else if c1 =? 45 then (Some true, r1) else (None, s)
            end) as [sg' r1].
  destruct (scan_digits r1) as [[] r']; intros E; try discriminate;
    injection E as <- <- <- <-; reflexivity.
Qed.

Lemma scan_number_normal s v r : scan_number s = Some (v, r) -> norm v = v.
Proof.
  unfold scan_number. destruct (scan_sign s) as [neg s1]. unfold scan_unsigned.
  destruct (scan_int_part s1) as [[u r1]|]; [|discriminate].
  destruct (scan_frac r1) as [fr r2] eqn:Hfr.
  destruct (scan_exp r2) as [ex r3] eqn:Hex.
  destruct fr as [uf|].
  - apply scan_frac_some in Hfr. intros E. injection E as <- <-.
    cbn [norm]. unfold norm_float. cbn [fl_frac fl_exp fl_neg fl_int].
    rewrite Hfr. destruct ex as [[[up sg] ue]|]; [|reflexivity].
    apply scan_exp_some in Hex. rewrite Hex. reflexivity.
  - destruct ex as [[[up sg] ue]|].
    + apply scan_exp_some in Hex. intros E. injection E as <- <-.
      cbn [norm]. unfold norm_float. cbn [fl_frac fl_exp fl_neg fl_int].
      rewrite Hex. reflexivity.
    + intros E. injection E as <- <-. reflexivity.
Qed.

Lemma scan_atom_normal s v r : scan_atom s = Some (v, r) -> norm v = v.
Proof.
  unfold scan_atom.
  destruct (strip_prefix (U "null") s); [intros E; injection E as <- <-; reflexivity|].
  destruct (strip_prefix (U "true") s); [intros E; injection E as <- <-; reflexivity|].
  destruct (strip_prefix (U "false") s); [intros E; injection E as <- <-; reflexivity|].
  destruct (scan_number s) as [[v' r']|] eqn:Hn.
  - intros E. injection E as <- <-. apply (scan_number_normal _ _ _ Hn).
  - destruct (strip_prefix (U "NaN") s); [intros E; injection E as <- <-; reflexivity|].
    destruct (strip_prefix (U "Infinity") s); [intros E; injection E as <- <-; reflexivity|].
    destruct (strip_prefix (U "-Infinity") s); [intros E; injection E as <- <-; reflexivity|].
    discriminate.
Qed.

Lemma pystr_eqb_sym a b : pystr_eqb a b = pystr_eqb b a.
Proof.
  destruct (pystr_eqb a b) eqn:E.
  - apply pystr_eqb_eq in E. subst. symmetry. apply pystr_eqb_refl.
  - symmetry. apply not_true_iff_false. intros E'. apply pystr_eqb_eq in E'.
    subst. rewrite pystr_eqb_refl in E. discriminate.
Qed.

Lemma dict_find_set k v d k' :
  dict_find k' (dict_set k v d)
  = if pystr_eqb k' k then Some v else dict_find k' d.
Proof.
  induction d as [|[k0 v0] d IH]; cbn [dict_set dict_find]; [reflexivity|].
  destruct (pystr_eqb k k0) eqn:E; cbn [dict_find].
  - apply pystr_eqb_eq in E. subst k0. destruct (pystr_eqb k' k); reflexivity.
  - destruct (pystr_eqb k' k0) eqn:E'.
    + apply pystr_eqb_eq in E'. subst k0. rewrite pystr_eqb_sym, E. reflexivity.
    + exact IH.
Qed.

Lemma dict_set_uniq k v d : uniq d -> uniq (dict_set k v d).
Proof.
  induction d as [|[k0 v0] d IH]; cbn [dict_set uniq]; [auto|].
  intros [Hk Hd]. destruct (pystr_eqb k k0) eqn:E; cbn [uniq]; [auto|].
  split; [|auto]. rewrite dict_find_set, pystr_eqb_sym, E. exact Hk.
Qed.

Lemma dict_of_pairs_uniq l : uniq (dict_of_pairs l).
Proof.
  unfold dict_of_pairs.
  assert (H : forall acc, uniq acc ->
                uniq (fold_left (fun d kv => dict_set (fst kv) (snd kv) d) l acc)).
  { induction l as [|[k v] l IH]; intros acc Hacc; cbn [fold_left]; [exact Hacc|].
    apply IH, dict_set_uniq, Hacc. }
  apply H. exact I.
Qed.

Lemma dict_find_app k a b :
  dict_find k (a ++ b)
  = match dict_find k a with Some v => Some v | None => dict_find k b end.
Proof.
  induction a as [|[k0 v0] a IH]; cbn [app dict_find]; [reflexivity|].
  destruct (pystr_eqb k k0); [reflexivity|exact IH].
Qed.

Lemma uniq_app_fresh acc k v r : uniq (acc ++ (k, v) :: r) -> dict_find k acc = None.
Proof.
  induction acc as [|[k0 v0] acc IH]; cbn [app uniq dict_find]; [reflexivity|].
  intros [Hk Hu]. destruct (pystr_eqb k k0) eqn:E; [|apply IH, Hu].
  apply pystr_eqb_eq in E. subst k0.
  rewrite dict_find_app in Hk. destruct (dict_find k acc); [discriminate|].
  cbn [dict_find] in Hk. rewrite pystr_eqb_refl in Hk. discriminate.
Qed.

Lemma dict_set_fresh k v d : dict_find k d = None -> dict_set k v d = d ++ [(k, v)].
Proof.
  induction d as [|[k0 v0] d IH]; cbn [dict_set dict_find app]; [reflexivity|].
  destruct (pystr_eqb k k0); [discriminate|]. intros H. rewrite IH by exact H.
  reflexivity.
Qed.

Lemma dict_of_pairs_id l : uniq l -> dict_of_pairs l = l.
Proof.
  unfold dict_of_pairs.
  assert (H : forall acc, uniq (acc ++ l) ->
                fold_left (fun d kv => dict_set (fst kv) (snd kv) d) l acc
                = acc ++ l).
  { induction l as [|[k v] l IH]; intros acc Hu; cbn [fold_left fst snd].
    - symmetry. apply app_nil_r.
    - rewrite (dict_set_fresh k v acc) by (eapply uniq_app_fresh, Hu).
      rewrite IH; rewrite <- app_assoc; [reflexivity|exact Hu]. }
  intros Hu. apply (H [] Hu).
Qed.

Lemma dict_set_normal k v d :
  norm v = v -> normal_values d -> normal_values (dict_set k v d).
Proof.
  intros Hv. induction 1 as [|[k0 v0] d H0 Hd IH]; cbn [dict_set].
  - repeat constructor. exact Hv.
  - destruct (pystr_eqb k k0); constructor; auto.
Qed.

Lemma dict_of_pairs_normal l : normal_values l -> normal_values (dict_of_pairs l).
Proof.
  unfold dict_of_pairs.
  assert (H : forall acc, normal_values l -> normal_values acc ->
                normal_values
                  (fold_left (fun d kv => dict_set (fst kv) (snd kv) d) l acc)).
  { induction l as [|[k v] l IH]; intros acc Hl Hacc; cbn [fold_left]; [exact Hacc|].
    inversion Hl; subst. apply IH; [assumption|].
    apply dict_set_normal; assumption. }
  intros Hl. apply H; [exact Hl|constructor].
Qed.

Lemma map_normal_values d :
  normal_values d -> map (fun p => (fst p, norm (snd p))) d = d.
Proof.
  induction 1 as [|[k v] d H0 Hd IH]; cbn [map fst snd]; [reflexivity|].
  cbn [snd] in H0. rewrite H0, IH. reflexivity.
Qed.

Lemma map_normal l : Forall (fun v => norm v = v) l -> map norm l = l.
Proof.
  induction 1 as [|v l H0 Hl IH]; cbn [map]; [reflexivity|].
  rewrite H0, IH. reflexivity.
Qed.

Lemma norm_object_parsed kv :
  normal_values kv -> norm (JObj (dict_of_pairs kv)) = JObj (dict_of_pairs kv).
Proof.
  intros H. cbn [norm].
  rewrite (map_normal_values _ (dict_of_pairs_normal _ H)).
  rewrite (dict_of_pairs_id _ (dict_of_pairs_uniq kv)). reflexivity.
Qed.

Lemma scan_number_not_object s kv r : scan_number s <> Some (JObj kv, r).
Proof.
  unfold scan_number. destruct (scan_sign s) as [neg s1]. unfold scan_unsigned.
  destruct (scan_int_part s1) as [[u r1]|]; [|discriminate].
  destruct (scan_frac r1) as [[uf|] r2]; destruct (scan_exp r2) as [[ex|] r3];
    discriminate.
Qed.

Lemma scan_atom_not_object s kv r : scan_atom s <> Some (JObj kv, r).
Proof.
  unfold scan_atom.
  destruct (strip_prefix (U "null") s); [discriminate|].
  destruct (strip_prefix (U "true") s); [discriminate|].
  destruct (strip_prefix (U "false") s); [discriminate|].
  destruct (scan_number s) as [[v' r']|] eqn:Hn.
  - intros E. injection E as -> ->. apply (scan_number_not_object _ _ _ Hn).
  - destruct (strip_prefix (U "NaN") s); [discriminate|].
    destruct (strip_prefix (U "Infinity") s); [discriminate|].
    destruct (strip_prefix (U "-Infinity") s); discriminate.
Qed.

Lemma parse_normal fuel :
  (forall s v r, parse_value fuel s = Some (v, r) ->
                 norm v = v /\ forall kv, v = JObj kv -> normal_values kv)
  /\ (forall s l r, parse_items fuel s = Some (l, r) ->
                    Forall (fun v => norm v = v) l)
  /\ (forall s kv r, parse_members fuel s = Some (kv, r) -> normal_values kv).
Proof.
  induction fuel as [|f (IHv & IHi & IHm)]; [repeat split; discriminate|].
  split; [|split].
  - intros s v r. cbn [parse_value]. destruct s as [|c s]; [discriminate|].
    destruct (c =? 34).
    { destruct (scanstring s) as [[t r']|]; [|discriminate].
      intros E. injection E as <- <-. split; [reflexivity|discriminate]. }
    destruct (c =? 123).
    { destruct (skip_ws s) as [|c' r']; [discriminate|].
      destruct (c' =? 125).
      { intros E. injection E as <- <-. split; [reflexivity|].
        intros kv E. injection E as <-. constructor. }
      destruct (c' =? 34); [|discriminate].
      destruct (parse_members f r') as [[kv r'']|] eqn:Hm; [|discriminate].
      intros E. injection E as <- <-.
      split; [apply norm_object_parsed, (IHm _ _ _ Hm)|].
      intros kv' E. injection E as <-.
      apply dict_of_pairs_normal, (IHm _ _ _ Hm). }
    destruct (c =? 91).
    { destruct (skip_ws s) as [|c' r']; [discriminate|].
      destruct (c' =? 93).
      { intros E. injection E as <- <-. split; [reflexivity|discriminate]. }
      destruct (parse_items f (c' :: r')) as [[l r'']|] eqn:Hi; [|discriminate].
      intros E. injection E as <- <-. split; [|discriminate]. cbn [norm].
      rewrite (map_normal _ (IHi _ _ _ Hi)). reflexivity. }
    intros E. split; [apply (scan_atom_normal _ _ _ E)|].
    intros kv ->. exfalso. apply (scan_atom_not_object _ _ _ E).
  - intros s l r. cbn [parse_items].
    destruct (parse_value f s) as [[v r1]|] eqn:Hv; [|discriminate].
    destruct (skip_ws r1) as [|c r']; [discriminate|].
    destruct (c =? 93).
    { intros E. injection E as <- <-. repeat constructor. apply (proj1 (IHv _ _ _ Hv)). }
    destruct (c =? 44); [|discriminate].
    destruct (parse_items f (skip_ws r')) as [[vs r'']|] eqn:Hi; [|discriminate].
    intros E. injection E as <- <-. constructor;
      [apply (proj1 (IHv _ _ _ Hv)) | apply (IHi _ _ _ Hi)].
  - intros s kv r. cbn [parse_members].
    destruct (scanstring s) as [[k r0]|]; [|discriminate].
    destruct (skip_ws r0) as [|c r1]; [discriminate|].
    destruct (c =? 58); [|discriminate].
    destruct (parse_value f (skip_ws r1)) as [[v r2]|] eqn:Hv; [|discriminate].
    destruct (skip_ws r2) as [|c2 r3]; [discriminate|].
    destruct (c2 =? 125).
    { intros E. injection E as <- <-. repeat constructor. apply (proj1 (IHv _ _ _ Hv)). }
    destruct (c2 =? 44); [|discriminate].
    destruct (skip_ws r3) as [|c3 r4]; [discriminate|].
    destruct (c3 =? 34); [|discriminate].
    destruct (parse_members f r4) as [[kvs r5]|] eqn:Hm; [|discriminate].
    intros E. injection E as <- <-. constructor;
      [apply (proj1 (IHv _ _ _ Hv)) | apply (IHm _ _ _ Hm)].
Qed.

(** A value [json.loads] returns is printed and read back unchanged. *)
Theorem json_loads_normal s v : json_loads s = Some v -> norm v = v.
Proof.
  unfold json_loads.
  destruct (parse_value _ _) as [[v' r]|] eqn:Hv; [|discriminate].
  destruct (skip_ws r); [|discriminate].
  intros E. injection E as <-.
  apply (proj1 (proj1 (parse_normal _) _ _ _ Hv)).
Qed.

Lemma json_loads_object_normal s kv :
  json_loads s = Some (JObj kv) -> normal_values kv.
Proof.
  unfold json_loads.
  destruct (parse_value _ _) as [[v' r]|] eqn:Hv; [|discriminate].
  destruct (skip_ws r); [|discriminate].
  intros E. injection E as ->.
  apply (proj2 (proj1 (parse_normal _) _ _ _ Hv) kv eq_refl).
Qed.

Lemma json_loads_list_normal s l :
  json_loads s = Some (JArr l) -> map norm l = l.
Proof.
  intros H. apply json_loads_normal in H. cbn [norm] in H.
  injection H as H. exact H.
Qed.

Lemma dict_get_normal k default d :
  norm default = default -> normal_values d ->
  norm (dict_get k default d) = dict_get k default d.
Proof.
  intros Hd. unfold dict_get. induction 1 as [|[k0 v0] d H0 H IH];
    cbn [dict_find]; [exact Hd|].
  destruct (pystr_eqb k k0); [exact H0|exact IH].
Qed.

Lemma stored_history_normal r : map norm (stored_history r) = stored_history r.
Proof.
  unfold stored_history. destruct (row_log r) as [[|c s]|]; try reflexivity.
  destruct (json_loads (c :: s)) as [[]|] eqn:H; try reflexivity.
  apply (json_loads_list_normal _ _ H).
Qed.

Lemma interpret_answer_normal env raw :
  norm (snd (fst (interpret env raw))) = snd (fst (interpret env raw)).
Proof.
  unfold interpret.
  destruct (json_loads (strip_control raw)) as [[]|] eqn:H; try reflexivity.
  cbn [fst snd]. apply dict_get_normal; [reflexivity|].
  apply (json_loads_object_normal _ _ H).
Qed.

(** * Facts about the services and the stages of a turn *)

Lemma load_history_found cid st row :
  leads (db st) !! cid = Some row -> session st = None ->
  load_history cid st
  = (Ok (Some cid, stored_history row),
     mkState (db st) (Some (track row)) (dialog_history st) (trace st)).
Proof.
  intros Hrow Hs.
  unfold load_history. run_monad.
  rewrite Hrow, Hs. run_monad. cbn [lead_log obj_of_row].
  unfold stored_history.
  destruct (row_log row) as [[|c s]|]; cbn [col_value truthy]; try reflexivity.
  destruct (json_loads (c :: s)) as [[]|]; reflexivity.
Qed.

Lemma load_history_missing cid st :
  leads (db st) !! cid = None -> session st = None ->
  load_history cid st = (Ok (None, []), st).
Proof.
  intros Hrow Hs.
  unfold load_history. run_monad.
  rewrite Hrow, Hs. reflexivity.
Qed.

Lemma render_entry_entry env r c :
  render_entry env (entry r c) = Ok (r ++ U ": " ++ py_str env c).
Proof. reflexivity. Qed.

Lemma step_missing env cid input d :
  leads d !! cid = None ->
  step env cid input (start d)
  = (Raise none_has_no_name,
     mkState d None [entry (U "user") (JStr input)] []).
Proof.
  intros Hrow. unfold step, bind at 1.
  rewrite load_history_missing by (exact Hrow || reflexivity).
  run_monad. reflexivity.
Qed.

Lemma step_found env cid input d row :
  leads d !! cid = Some row ->
  step env cid input (start d)
  = let h1 := stored_history row ++ [entry (U "user") (JStr input)] in
    match dialog_text env h1 with
    | Raise e => (Raise e, mkState d (Some (track row)) h1 [])
    | Ok dlg =>
        let msgs := prompt env (obj_of_row row) dlg input in
        match env_gpt env msgs with
        | Raise e => (Raise e, mkState d (Some (track row)) h1 [EvGpt msgs])
        | Ok raw =>
            respond env cid (Some cid) raw
                    (mkState d (Some (track row)) h1 [EvGpt msgs])
        end
    end.
Proof.
  intros Hrow. unfold step, bind at 1.
  rewrite (load_history_found cid (start d) row) by (exact Hrow || reflexivity).
  run_monad.
  destruct (dialog_text env _) as [dlg|e]; [|reflexivity].
  unfold prompt. destruct (env_gpt env _); reflexivity.
Qed.

Lemma LeadBase_new_log text :
  LeadBase_new [(U "log", JStr text)] = Ok (mkLead None None (Some (Some text))).
Proof. reflexivity. Qed.

Lemma save_history_tracked env cid d t h tr :
  save_history env cid (Some cid) (mkState d (Some t) h tr)
  = match leads d !! cid with
    | None =>
        (Raise (if is_dirty t then stale_data else http_404),
         mkState d (Some t) h tr)
    | Some cur =>
        let t' := mkTracked (with_log (obj t) (json_dumps (JArr h))) (loaded t) in
        if is_dirty t' then
          match flush env t' cur with
          | Raise e => (Raise e, mkState d (Some t') h tr)
          | Ok row' =>
              (Ok tt, mkState (mkDb (<[cid := row']> (leads d)) (lead_seq d))
                              None h (tr ++ [EvUpdateLead cid row']))
          end
        else (Ok tt, mkState d None h (tr ++ [EvUpdateLead cid cur]))
    end.
Proof.
  unfold save_history. run_monad. rewrite LeadBase_new_log. run_monad.
  destruct (leads d !! cid) as [cur|] eqn:Hcur; run_monad.
  - unfold apply_update.
    cbn [set_field lb_name lb_contact lb_log col_value].
    fold (with_log (obj t) (json_dumps (JArr h))).
    destruct (is_dirty _); run_monad.
    + rewrite Hcur. destruct (flush env _ cur) as [row'|e]; [|reflexivity].
      run_monad. rewrite lookup_insert_eq. reflexivity.
    + rewrite Hcur. reflexivity.
  - destruct (is_dirty t); reflexivity.
Qed.

Lemma respond_tracked env cid raw d t h tr :
  respond env cid (Some cid) raw (mkState d (Some t) h tr)
  = let rd := fst (fst (interpret env raw)) in
    let ans := snd (fst (interpret env raw)) in
    let sql := snd (interpret env raw) in
    match save_history env cid (Some cid)
            (mkState (db_after_sql env sql d)
                     (Some (mkTracked (merge_profile rd (obj t)) (loaded t)))
                     (h ++ [entry (U "assistant") ans])
                     (tr ++ sql_events sql)) with
    | (Ok _, st') => (Ok ans, st')
    | (Raise e, st') => (Raise e, st')
    end.
Proof.
  unfold respond. cbv zeta.
  destruct (interpret env raw) as [[rd ans] sql].
  cbn [fst snd].
  unfold db_after_sql, sql_events.
  destruct sql as [| | | | | |[|c s]| |]; cbn [truthy is_str andb sql_to_run];
    run_monad; rewrite ?app_nil_r; try reflexivity.
  - destruct b; reflexivity.
  - destruct (negb _); reflexivity.
  - destruct (negb _); reflexivity.
  - destruct (env_sql env (c :: s) d); reflexivity.
  - destruct l; reflexivity.
  - destruct kv; reflexivity.
Qed.

(** * Facts about a turn *)

Lemma same_value_col c : same_value (col_value c) c = true.
Proof. destruct c; cbn; [apply pystr_eqb_refl|reflexivity]. Qed.

Lemma stored_history_dumps n c h :
  stored_history (mkRow n c (Some (json_dumps (JArr h)))) = map norm h.
Proof.
  unfold stored_history. cbn [row_log json_dumps].
  change (91 :: join [44; 32] (map json_dumps h) ++ [93])
    with (json_dumps (JArr h)).
  rewrite json_loads_dumps. reflexivity.
Qed.

Lemma log_changed row extra :
  extra <> [] ->
  same_value (JStr (json_dumps (JArr (stored_history row ++ extra))))
             (row_log row) = false.
Proof.
  intros Hx.
  destruct (row_log row) as [old|] eqn:Hlog; [|reflexivity].
  cbn [same_value]. apply not_true_iff_false. intros E.
  apply pystr_eqb_eq in E.
  assert (Hh : stored_history row = map norm (stored_history row ++ extra)).
  { rewrite <- (stored_history_dumps (row_name row) (row_contact row)).
    unfold stored_history at 1. rewrite Hlog, <- E. reflexivity. }
  apply (f_equal (@length json)) in Hh.
  rewrite length_map, length_app in Hh.
  destruct extra; [congruence|]. cbn [length] in Hh. lia.
Qed.

Lemma log_dirty o row extra :
  extra <> [] ->
  is_dirty (mkTracked (with_log o (json_dumps (JArr (stored_history row ++ extra))))
                      row) = true.
Proof.
  intros Hx. unfold is_dirty. cbn [obj loaded with_log lead_log].
  rewrite (log_changed row extra Hx), !andb_false_r. reflexivity.
Qed.

Lemma step_cases env cid input d :
  step env cid input (start d)
  = match leads d !! cid with
    | None =>
        (Raise none_has_no_name,
         mkState d None [entry (U "user") (JStr input)] [])
    | Some row =>
        let h1 := stored_history row ++ [entry (U "user") (JStr input)] in
        match dialog_text env h1 with
        | Raise e => (Raise e, mkState d (Some (track row)) h1 [])
        | Ok dlg =>
            let msgs := prompt env (obj_of_row row) dlg input in
            match env_gpt env msgs with
            | Raise e =>
                (Raise e, mkState d (Some (track row)) h1 [EvGpt msgs])
            | Ok raw =>
                let rd := fst (fst (interpret env raw)) in
                let ans := snd (fst (interpret env raw)) in
                let sql := snd (interpret env raw) in
                let d1 := db_after_sql env sql d in
                let h2 := h1 ++ [entry (U "assistant") ans] in
                let tr := [EvGpt msgs] ++ sql_events sql in
                let merged := merge_profile rd (obj_of_row row) in
                let t' := mkTracked (with_log merged (json_dumps (JArr h2))) row in
                match leads d1 !! cid with
                | None =>
                    (Raise (if is_dirty (mkTracked merged row)
                            then stale_data else http_404),
                     mkState d1 (Some (mkTracked merged row)) h2 tr)
                | Some cur =>
                    match flush env t' cur with
                    | Raise e => (Raise e, mkState d1 (Some t') h2 tr)
                    | Ok row' =>
                        (Ok ans,
                         mkState (mkDb (<[cid := row']> (leads d1)) (lead_seq d1))
                                 None h2 (tr ++ [EvUpdateLead cid row']))
                    end
                end
            end
        end
    end.
Proof.
  destruct (leads d !! cid) as [row|] eqn:Hrow;
    [|apply step_missing, Hrow].
  rewrite (step_found env cid input d row Hrow). cbv zeta.
  destruct (dialog_text env _) as [dlg|e]; [|reflexivity].
  destruct (env_gpt env _) as [raw|e]; [|reflexivity].
  rewrite respond_tracked. cbv zeta. rewrite save_history_tracked.
  cbn [obj loaded track]. cbv zeta.
  destruct (leads (db_after_sql env _ d) !! cid) as [cur|]; [|reflexivity].
  rewrite <- app_assoc. cbn [app].
  rewrite (log_dirty _ row
             [entry (U "user") (JStr input);
              entry (U "assistant") (snd (fst (interpret env raw)))])
    by discriminate.
  destruct (flush env _ cur); reflexivity.
Qed.

(** A turn that got as far as the model call found the lead, rendered
    its history, and sent the prompt built from them. *)
Lemma reached_llm env cid input d res st' msgs :
  step env cid input (start d) = (res, st') ->
  In (EvGpt msgs) (trace st') ->
  exists row dlg,
    leads d !! cid = Some row
    /\ dialog_text env (stored_history row ++ [entry (U "user") (JStr input)])
       = Ok dlg
    /\ msgs = prompt env (obj_of_row row) dlg input.
Proof.
  rewrite step_cases. cbv zeta. intros H Hin.
  destruct (leads d !! cid) as [row|];
    [|injection H as <- <-; destruct Hin].
  destruct (dialog_text env _) as [dlg|e] eqn:Hdlg;
    [|injection H as <- <-; destruct Hin].
  exists row, dlg. split; [reflexivity|]. split; [exact Hdlg|].
  assert (Hsql : forall sql, ~ In (EvGpt msgs) (sql_events sql)).
  { intros sql. unfold sql_events. destruct (sql_to_run sql); cbn; [|tauto].
    intros [?|[]]; discriminate. }
  destruct (env_gpt env _) as [raw|e].
  - destruct (leads (db_after_sql env _ d) !! cid) as [cur|];
      [destruct (flush env _ cur)|];
      injection H as <- <-; cbn [trace] in Hin.
    all: repeat first [rewrite in_app_iff in Hin | progress (cbn [In app] in Hin)].
    + destruct Hin as [E|[Hs|[E|[]]]];
        [injection E as <-; reflexivity | exfalso; eapply Hsql, Hs
        | discriminate E].
    + destruct Hin as [E|Hs];
        [injection E as <-; reflexivity | exfalso; eapply Hsql, Hs].
    + destruct Hin as [E|Hs];
        [injection E as <-; reflexivity | exfalso; eapply Hsql, Hs].
  - injection H as <- <-. cbn [trace In] in Hin. destruct Hin as [E|[]].
    injection E as <-; reflexivity.
Qed.

Lemma step_answered env cid input d row dlg raw :
  leads d !! cid = Some row ->
  dialog_text env (stored_history row ++ [entry (U "user") (JStr input)])
  = Ok dlg ->
  env_gpt env (prompt env (obj_of_row row) dlg input) = Ok raw ->
  step env cid input (start d)
  = let h1 := stored_history row ++ [entry (U "user") (JStr input)] in
    let msgs := prompt env (obj_of_row row) dlg input in
    let rd := fst (fst (interpret env raw)) in
    let ans := snd (fst (interpret env raw)) in
    let sql := snd (interpret env raw) in
    let d1 := db_after_sql env sql d in
    let h2 := h1 ++ [entry (U "assistant") ans] in
    let tr := [EvGpt msgs] ++ sql_events sql in
    let merged := merge_profile rd (obj_of_row row) in
    let t' := mkTracked (with_log merged (json_dumps (JArr h2))) row in
    match leads d1 !! cid with
    | None =>
        (Raise (if is_dirty (mkTracked merged row) then stale_data else http_404),
         mkState d1 (Some (mkTracked merged row)) h2 tr)
    | Some cur =>
        match flush env t' cur with
        | Raise e => (Raise e, mkState d1 (Some t') h2 tr)
        | Ok row' =>
            (Ok ans,
             mkState (mkDb (<[cid := row']> (leads d1)) (lead_seq d1))
                     None h2 (tr ++ [EvUpdateLead cid row']))
        end
    end.
Proof.
  intros Hrow Hdlg Hgpt. rewrite step_cases, Hrow. cbv zeta.
  rewrite Hdlg, Hgpt. reflexivity.
Qed.

Lemma sql_calls_app a b : sql_calls (a ++ b) = sql_calls a ++ sql_calls b.
Proof. apply flat_map_app. Qed.

Lemma sql_calls_events sql :
  sql_calls (sql_events sql)
  = match sql_to_run sql with Some s => [s] | None => [] end.
Proof. unfold sql_events. destruct (sql_to_run sql); reflexivity. Qed.

Lemma interpret_invalid env raw :
  json_loads (strip_control raw) = None ->
  interpret env raw
  = ([], JStr (parse_error ++ env_json_error env (strip_control raw)), JNull).
Proof. intros H. unfold interpret. rewrite H. reflexivity. Qed.


Lemma bind_value_text env v :
  text_or_null v = true -> encodable v = true ->
  exists c, bind_value env v = Ok c /\ col_value c = v.
Proof.
  destruct v; try discriminate; intros _ He.
  - exists None. split; reflexivity.
  - exists (Some s). cbn [bind_value encodable] in *.
    destruct (has_surrogate s); [discriminate He|]. split; reflexivity.
Qed.

Lemma bind_value_surrogate env s :
  has_surrogate s = true -> bind_value env (JStr s) = Raise (env_encode_error env s).
Proof. intros H. cbn [bind_value]. rewrite H. reflexivity. Qed.

Lemma bind_value_encodable env s :
  has_surrogate s = false -> bind_value env (JStr s) = Ok (Some s).
Proof. intros H. cbn [bind_value]. rewrite H. reflexivity. Qed.

Lemma flush_column_ok env v was cur :
  text_or_null v = true -> encodable v = true ->
  exists c, flush_column env v was cur = Ok c.
Proof.
  intros H He. unfold flush_column. destruct (same_value v was); [eauto|].
  destruct (bind_value_text env v H He) as (c & -> & _). eauto.
Qed.

Lemma flush_ok env o row new cur :
  text_or_null (lead_name o) = true -> text_or_null (lead_contact o) = true ->
  encodable (lead_name o) = true -> encodable (lead_contact o) = true ->
  has_surrogate new = false ->
  exists row',
    flush env (mkTracked (with_log o new) row) cur = Ok row'.
Proof.
  intros Hn Hc En Ec El. unfold flush.
  cbn [obj loaded with_log lead_name lead_contact lead_log].
  destruct (flush_column_ok env (lead_name o) (row_name row) (row_name cur) Hn En)
    as (n & ->).
  destruct (flush_column_ok env (lead_contact o) (row_contact row)
              (row_contact cur) Hc Ec) as (c & ->).
  destruct (flush_column_ok env (JStr new) (row_log row) (row_log cur)
              eq_refl) as (l & ->); [cbn [encodable]; rewrite El; reflexivity|].
  eauto.
Qed.

Lemma flush_log env o row new cur row' :
  same_value (JStr new) (row_log row) = false ->
  flush env (mkTracked (with_log o new) row) cur = Ok row' ->
  row_log row' = Some new.
Proof.
  intros Hl. unfold flush, flush_column.
  cbn [obj loaded with_log lead_name lead_contact lead_log]. rewrite Hl.
  destruct (if same_value (lead_name o) _ then _ else _); [|discriminate].
  destruct (if same_value (lead_contact o) _ then _ else _); [|discriminate].
  cbn [bind_value]. destruct (has_surrogate new); [discriminate|].
  intros E. injection E as <-. reflexivity.
Qed.

Lemma flush_clean env row new cur :
  same_value (JStr new) (row_log row) = false ->
  flush env (mkTracked (with_log (obj_of_row row) new) row) cur
  = if has_surrogate new then Raise (env_encode_error env new)
    else Ok (mkRow (row_name cur) (row_contact cur) (Some new)).
Proof.
  intros Hl. unfold flush, flush_column.
  cbn [obj loaded with_log lead_name lead_contact lead_log obj_of_row].
  rewrite !same_value_col, Hl. cbn [bind_value].
  destruct (has_surrogate new); reflexivity.
Qed.

(** * Theorems about a turn *)

Lemma db_after_sql_none env sql d :
  sql_to_run sql = None -> db_after_sql env sql d = d.
Proof. intros H. unfold db_after_sql. rewrite H. reflexivity. Qed.

Lemma sql_events_none sql : sql_to_run sql = None -> sql_events sql = [].
Proof. intros H. unfold sql_events. rewrite H. reflexivity. Qed.

Lemma turn_history_assoc (h : list json) u a : (h ++ [u]) ++ [a] = h ++ [u; a].
Proof. rewrite <- app_assoc. reflexivity. Qed.

(** A turn whose reply the engine cannot use: the answer is a
    diagnostic, nothing of the reply is applied, and the outcome is
    that of the write of the new history. *)
Lemma diagnostic_turn env cid input d res st' row dlg raw answer :
  leads d !! cid = Some row ->
  dialog_text env (stored_history row ++ [entry (U "user") (JStr input)]) = Ok dlg ->
  env_gpt env (prompt env (obj_of_row row) dlg input) = Ok raw ->
  interpret env raw = ([], JStr answer, JNull) ->
  step env cid input (start d) = (res, st') ->
  sql_calls (trace st') = []
  /\ if has_surrogate (turn_log row input (JStr answer))
     then res = Raise (env_encode_error env (turn_log row input (JStr answer)))
          /\ db st' = d
     else res = Ok (JStr answer)
          /\ exists row',
               leads (db st') !! cid = Some row'
               /\ row_name row' = row_name row
               /\ row_contact row' = row_contact row
               /\ length (stored_history row')
                  = (length (stored_history row) + 2)%nat.
Proof.
  intros Hrow Hdlg Hgpt Hint Hstep.
  rewrite (step_answered _ _ _ _ _ _ _ Hrow Hdlg Hgpt) in Hstep.
  cbv zeta in Hstep. rewrite Hint in Hstep. cbn [fst snd] in Hstep.
  rewrite db_after_sql_none, sql_events_none in Hstep by reflexivity.
  rewrite Hrow, turn_history_assoc in Hstep.
  change (merge_profile [] (obj_of_row row)) with (obj_of_row row) in Hstep.
  rewrite flush_clean in Hstep by (apply log_changed; discriminate).
  unfold turn_log.
  destruct (has_surrogate _) eqn:Hs; outcome Hstep.
  - split; [reflexivity|]. split; reflexivity.
  - split; [reflexivity|]. split; [reflexivity|].
    eexists. cbn [db leads]. rewrite lookup_insert_eq.
    split; [reflexivity|]. cbn [row_name row_contact].
    split; [reflexivity|]. split; [reflexivity|].
    rewrite stored_history_dumps, length_map, length_app. reflexivity.
Qed.

(** C5, amended.  When the model's reply is not valid JSON once its
    control characters are removed, the turn calls [execute_sql] with
    nothing and applies nothing of the reply; its answer is a
    diagnostic text that is not empty and embeds the text of the parse
    error.  The turn returns that answer, with the stored name and
    contact as they were and the stored history two entries longer,
    unless the text of the new history holds a lone surrogate: then
    the write raises, the turn fails with that error and the database
    is as it was. *)
Theorem malformed_response_turn env cid input d res st' msgs raw :
  step env cid input (start d) = (res, st') ->
  In (EvGpt msgs) (trace st') ->
  env_gpt env msgs = Ok raw ->
  json_loads (strip_control raw) = None ->
  let answer := parse_error ++ env_json_error env (strip_control raw) in
  answer <> []
  /\ sql_calls (trace st') = []
  /\ exists row,
       leads d !! cid = Some row
       /\ if has_surrogate (turn_log row input (JStr answer))
          then res = Raise (env_encode_error env (turn_log row input (JStr answer)))
               /\ db st' = d
          else res = Ok (JStr answer)
               /\ exists row',
                    leads (db st') !! cid = Some row'
                    /\ row_name row' = row_name row
                    /\ row_contact row' = row_contact row
                    /\ length (stored_history row')
                       = (length (stored_history row) + 2)%nat.
Proof.
  intros Hstep Hin Hgpt Hbad answer.
  destruct (reached_llm _ _ _ _ _ _ _ Hstep Hin) as (row & dlg & Hrow & Hdlg & Emsgs);
    subst msgs.
  destruct (diagnostic_turn env cid input d res st' row dlg raw answer
              Hrow Hdlg Hgpt (interpret_invalid _ _ Hbad) Hstep) as (Hsql & Hout).
  split; [discriminate|]. split; [exact Hsql|].
  exists row. split; [exact Hrow|exact Hout].
Qed.

(** C6.  When the model call fails, [step] raises that failure to its
    caller; the database is exactly what it was before the turn. *)
Theorem llm_failure_propagates env cid input d res st' msgs e :
  step env cid input (start d) = (res, st') ->
  In (EvGpt msgs) (trace st') ->
  env_gpt env msgs = Raise e ->
  res = Raise e /\ db st' = d /\ lead_writes (trace st') = [].
Proof.
  intros Hstep Hin Hgpt.
  destruct (reached_llm _ _ _ _ _ _ _ Hstep Hin) as (row & dlg & Hrow & Hdlg & Emsgs); subst msgs.
  rewrite step_cases, Hrow in Hstep. cbv zeta in Hstep.
  rewrite Hdlg, Hgpt in Hstep. outcome Hstep.
  repeat split; reflexivity.
Qed.

Lemma stored_history_log r h :
  row_log r = Some (json_dumps (JArr h)) -> stored_history r = map norm h.
Proof.
  intros H. rewrite <- (stored_history_dumps (row_name r) (row_contact r)).
  unfold stored_history. rewrite H. reflexivity.
Qed.

Lemma norm_entry r c : norm (entry r c) = entry r (norm c).
Proof. reflexivity. Qed.


Lemma text_or_null_get k c rd :
  text_or_null (dict_get k JNull rd) = true ->
  text_or_null (dict_get k (col_value c) rd) = true.
Proof.
  unfold dict_get. destruct (dict_find k rd); [tauto|].
  intros _. destruct c; reflexivity.
Qed.





(** C1.  For a client without a stored record the turn raises the
    [AttributeError] of line 225: no model call is made, no answer is
    returned and no record is created. *)
Theorem first_contact_turn_fails env cid input d :
  leads d !! cid = None ->
  step env cid input (start d)
  = (Raise none_has_no_name,
     mkState d None [entry (U "user") (JStr input)] []).
Proof. intros H. rewrite step_cases, H. reflexivity. Qed.

(** * Clearing a dialog and creating a lead *)

Lemma clear_dialog_missing env cid d :
  leads d !! cid = None -> leads d !! lead_seq d = None ->
  clear_dialog env cid (start d)
  = (Ok tt,
     mkState (mkDb (<[lead_seq d := cleared]> (leads d)) (lead_seq d + 1)%Z)
             None [] [EvCreateLead (lead_seq d) cleared]).
Proof.
  intros Hcid Hseq. unfold clear_dialog.
  change (LeadBase_new _)
    with (Ok (mkLead (Some None) (Some None) (Some (Some [91; 93])))).
  run_monad. rewrite Hcid. run_monad.
  change (LeadCreate_new _)
    with (Ok (mkLead (Some None) (Some None) (Some (Some [91; 93])))).
  run_monad. unfold create_lead_service. run_monad. rewrite Hseq.
  run_monad. reflexivity.
Qed.

Lemma flush_cleared env row :
  flush env (mkTracked (mkObj JNull JNull (JStr [91; 93])) row) row = Ok cleared.
Proof.
  unfold flush, flush_column, cleared.
  cbn [obj loaded lead_name lead_contact lead_log].
  destruct row as [[n|] [c|] [l|]]; cbn [same_value row_name row_contact row_log bind_value];
    try (destruct (pystr_eqb [91; 93] l) eqn:E;
         [apply pystr_eqb_eq in E; subst l|]); reflexivity.
Qed.

Lemma clear_dialog_found env cid d row :
  leads d !! cid = Some row ->
  clear_dialog env cid (start d)
  = (Ok tt,
     mkState (mkDb (<[cid := cleared]> (leads d)) (lead_seq d))
             None [] [EvUpdateLead cid cleared]).
Proof.
  intros Hcid. unfold clear_dialog.
  change (LeadBase_new _)
    with (Ok (mkLead (Some None) (Some None) (Some (Some [91; 93])))).
  run_monad. rewrite Hcid. run_monad. rewrite Hcid. run_monad.
  unfold apply_update. cbn [set_field lb_name lb_contact lb_log col_value].
  destruct (is_dirty _) eqn:Hd; run_monad.
  - rewrite Hcid, flush_cleared. run_monad. rewrite lookup_insert_eq.
    reflexivity.
  - rewrite Hcid.
    assert (E : row = cleared).
    { unfold is_dirty in Hd. cbn [obj loaded lead_name lead_contact lead_log] in Hd.
      apply negb_false_iff in Hd.
      apply andb_true_iff in Hd as [Hd Hl]. apply andb_true_iff in Hd as [Hn Hc].
      destruct row as [[n|] [c|] [l|]]; try discriminate.
      cbn [same_value row_log] in Hl. apply pystr_eqb_eq in Hl. subst l.
      reflexivity. }
    subst row. rewrite (insert_id _ _ _ Hcid). destruct d; reflexivity.
Qed.

(** X22.  For a lead that exists, clearing is idempotent: a second call
    succeeds and leaves the database as the first one left it. *)
Lemma clear_dialog_idempotent env cid d row :
  leads d !! cid = Some row ->
  exists st1 st2,
    clear_dialog env cid (start d) = (Ok tt, st1)
    /\ clear_dialog env cid (start (db st1)) = (Ok tt, st2)
    /\ leads (db st1) !! cid = Some cleared
    /\ db st2 = db st1.
Proof.
  intros Hcid. eexists _, _.
  split; [apply (clear_dialog_found env cid d row Hcid)|].
  cbn [db].
  assert (H1 : leads (mkDb (<[cid := cleared]> (leads d)) (lead_seq d)) !! cid
               = Some cleared) by (cbn [leads]; apply lookup_insert_eq).
  split; [apply (clear_dialog_found env cid _ cleared H1)|].
  split; [exact H1|]. cbn [db leads lead_seq].
  rewrite insert_insert_eq. reflexivity.
Qed.

(** C9.  For a client without a record, [clear_dialog] creates the
    empty lead under the key the table generates, not under
    [client_id]: the client still has no record after the call, and a
    second call creates one more row. *)
Theorem clear_dialog_misses_client_id env cid d :
  leads d !! cid = None ->
  leads d !! lead_seq d = None ->
  leads d !! (lead_seq d + 1)%Z = None ->
  lead_seq d <> cid -> (lead_seq d + 1)%Z <> cid ->
  exists st1 st2,
    clear_dialog env cid (start d) = (Ok tt, st1)
    /\ clear_dialog env cid (start (db st1)) = (Ok tt, st2)
    /\ leads (db st1) !! cid = None
    /\ leads (db st2) !! cid = None
    /\ leads (db st2) !! lead_seq d = Some cleared
    /\ leads (db st2) !! (lead_seq d + 1)%Z = Some cleared.
Proof.
  intros Hcid Hseq Hnext Hne Hne'. eexists _, _.
  split; [apply (clear_dialog_missing env cid d Hcid Hseq)|].
  cbn [db].
  assert (H1 : leads (mkDb (<[lead_seq d := cleared]> (leads d))
                           (lead_seq d + 1)%Z) !! cid = None).
  { cbn [leads]. rewrite lookup_insert_ne by exact Hne. exact Hcid. }
  split.
  - apply (clear_dialog_missing env cid _ H1). cbn [leads lead_seq].
    rewrite lookup_insert_ne by lia. exact Hnext.
  - split; [exact H1|]. cbn [db leads lead_seq].
    rewrite (lookup_insert_ne _ (lead_seq d + 1)%Z cid) by exact Hne'.
    rewrite (lookup_insert_ne _ (lead_seq d) cid) by exact Hne.
    split; [exact Hcid|]. split.
    + rewrite lookup_insert_ne by lia. apply lookup_insert_eq.
    + apply lookup_insert_eq.
Qed.

(** C2.  The creating branch of [save_history] stores the history under
    the key the table generates and passes neither [client_id] nor a
    name or contact on: the [id] given to [LeadCreate] is not a field
    of that schema.  (Like every write of a text, the INSERT raises,
    and stores nothing, when the text holds a lone surrogate.) *)
Theorem save_history_creates_under_generated_key env cid d h tr :
  leads d !! lead_seq d = None ->
  save_history env cid None (mkState d None h tr)
  = if has_surrogate (json_dumps (JArr h))
    then (Raise (env_encode_error env (json_dumps (JArr h))),
          mkState d None h tr)
    else
      (Ok tt,
       mkState (mkDb (<[lead_seq d := mkRow None None (Some (json_dumps (JArr h)))]>
                        (leads d))
                     (lead_seq d + 1)%Z)
               None h
               (tr ++ [EvCreateLead (lead_seq d)
                         (mkRow None None (Some (json_dumps (JArr h))))])).
Proof.
  intros Hseq. unfold save_history. run_monad.
  change (LeadCreate_new _)
    with (Ok (mkLead None None (Some (Some (json_dumps (JArr h)))))).
  run_monad. unfold create_lead_service. run_monad. rewrite Hseq.
  run_monad. unfold bind_row.
  cbn [field_default lb_name lb_contact lb_log row_name row_contact row_log
       col_value bind_value].
  destruct (has_surrogate (json_dumps (JArr h))); run_monad; reflexivity.
Qed.

(** X23.  A turn that completes makes one write of its own to the lead
    table: an update of the client's row, which then holds as its log
    the text of the history of the turn.  What a statement passed to
    [execute_sql] does to the table is apart from that; when the turn
    passed no statement, the update is all that changed in the
    database: no lead was created and no other row touched. *)
Lemma completed_turn_writes_once env cid input d ans st' :
  step env cid input (start d) = (Ok ans, st') ->
  exists row',
    lead_writes (trace st') = [EvUpdateLead cid row']
    /\ leads (db st') !! cid = Some row'
    /\ row_log row' = Some (json_dumps (JArr (dialog_history st')))
    /\ (sql_calls (trace st') = [] ->
        db st' = mkDb (<[cid := row']> (leads d)) (lead_seq d)).
Proof.
  rewrite step_cases. cbv zeta. intros Hstep.
  destruct (leads d !! cid) as [row|] eqn:Hrow; [|discriminate].
  destruct (dialog_text env _) as [dlg|e]; [|discriminate].
  destruct (env_gpt env _) as [raw|e]; [|discriminate].
  destruct (leads (db_after_sql env _ d) !! cid) as [cur|]; [|discriminate].
  rewrite turn_history_assoc in Hstep.
  destruct (flush env _ cur) as [row'|e] eqn:Hflush; [|discriminate].
  apply flush_log in Hflush; [|apply log_changed; discriminate].
  outcome Hstep. exists row'. cbn [trace db leads dialog_history].
  rewrite lookup_insert_eq. split; [|split; [reflexivity|split; [exact Hflush|]]].
  - unfold lead_writes. rewrite !List.filter_app. unfold sql_events.
    destruct (sql_to_run _); reflexivity.
  - rewrite !sql_calls_app, sql_calls_events. cbn [sql_calls flat_map app].
    rewrite app_nil_r. intros Hsql.
    assert (Hrun : sql_to_run (snd (interpret env raw)) = None)
      by (destruct (sql_to_run _); [discriminate Hsql|reflexivity]).
    rewrite (db_after_sql_none _ _ _ Hrun). reflexivity.
Qed.

(** * The merge of the profile *)








(** * The knowledge sections of the prompt *)





(** * The history message of the prompt *)

(** C8, as stated, fails: for an input of 1999 letters a and a final b,
    the rendered history has 2006 characters, and the message sent ends
    with a, not with the b that ends the history. *)
Lemma history_message_drops_tail :
  let env := demo_env None (Ok reply_hi) in
  let h := [entry (U "user") (JStr long_input)] in
  let dlg := U "user: " ++ long_input in
  let msgs := prompt env (obj_of_row ann_row) dlg long_input in
  let out := step env 7%Z long_input (start ann_db) in
  dialog_text env h = Ok dlg
  /\ length dlg = 2006%nat
  /\ sent_prompts (trace (snd out)) = [msgs]
  /\ nth_error msgs 6
     = Some (system (history_header ++ U "user: " ++ repeat 97 1994))
  /\ ~ history_message_as_stated env h msgs.
Proof.
  cbv zeta. repeat split; try (vm_compute; reflexivity).
  intros H. specialize (H _ eq_refl). vm_compute in H. discriminate H.
Qed.

Lemma render_entries_spec env h lines :
  render_entries env h = Ok lines ->
  Forall2 (fun m line =>
             exists r c, subscript m (U "role") = Ok r
                         /\ subscript m (U "content") = Ok c
                         /\ line = py_str env r ++ U ": " ++ py_str env c)
          h lines.
Proof.
  revert lines. induction h as [|m h IH]; intros lines H; cbn [render_entries] in H.
  - injection H as <-. constructor.
  - unfold render_entry in H.
    destruct (subscript m (U "role")) as [r|] eqn:Hr; [|discriminate].
    destruct (subscript m (U "content")) as [c|] eqn:Hc; [|discriminate].
    destruct (render_entries env h) as [ls|]; [|discriminate].
    pose proof (f_equal (fun x => match x with Ok l => l | Raise _ => [] end) H) as E.
    cbv beta iota in E. subst lines. constructor; [|apply IH; reflexivity].
    exists r, c. auto.
Qed.

(** C8, amended.  The seventh message of the prompt is the header
    followed by the first 2000 characters of the rendered history; the
    history is rendered oldest entry first, one line [role: content]
    per entry: when it is over the budget, the most recent content is
    what goes. *)
Theorem history_message_keeps_head env cid input d res st' msgs :
  step env cid input (start d) = (res, st') ->
  In (EvGpt msgs) (trace st') ->
  exists row lines,
    leads d !! cid = Some row
    /\ Forall2 (fun m line =>
                  exists r c, subscript m (U "role") = Ok r
                              /\ subscript m (U "content") = Ok c
                              /\ line = py_str env r ++ U ": " ++ py_str env c)
               (stored_history row ++ [entry (U "user") (JStr input)]) lines
    /\ nth_error msgs 6
       = Some (system (history_header ++ firstn 2000 (join [10] lines))).
Proof.
  intros Hstep Hin.
  destruct (reached_llm _ _ _ _ _ _ _ Hstep Hin)
    as (row & dlg & Hrow & Hdlg & Emsgs); subst msgs.
  unfold dialog_text in Hdlg.
  destruct (stored_history row ++ [entry (U "user") (JStr input)]) as [|m h] eqn:Eh;
    [destruct (stored_history row); discriminate|].
  destruct (render_entries env (m :: h)) as [lines|] eqn:Hl; [|discriminate].
  pose proof (f_equal (fun x => match x with Ok l => l | Raise _ => [] end) Hdlg) as E.
  cbv beta iota in E. subst dlg.
  exists row, lines. split; [exact Hrow|]. split.
  - rewrite Eh. apply render_entries_spec, Hl.
  - reflexivity.
Qed.

(** * The theorems at concrete turns *)

Lemma first_contact_turn_fails_witness :
  leads ann_db !! 9%Z = None
  /\ step (demo_env None (Ok reply_hi)) 9%Z (U "hello") (start ann_db)
     = (Raise none_has_no_name,
        mkState ann_db None [entry (U "user") (JStr (U "hello"))] []).
Proof.
  split; [reflexivity|].
  apply (first_contact_turn_fails (demo_env None (Ok reply_hi)) 9%Z).
  reflexivity.
Defined.

Lemma save_history_creates_under_generated_key_witness :
  leads ann_db !! lead_seq ann_db = None
  /\ save_history (demo_env None (Ok reply_hi)) 9%Z None
       (mkState ann_db None [entry (U "user") (JStr (U "hello"))] [])
     = (Ok tt,
        mkState
          (mkDb (<[8%Z := mkRow None None
                            (Some (J "[{'role': 'user', 'content': 'hello'}]"))]>
                   (leads ann_db)) 9%Z)
          None [entry (U "user") (JStr (U "hello"))]
          [EvCreateLead 8%Z
             (mkRow None None
                (Some (J "[{'role': 'user', 'content': 'hello'}]")))]).
Proof.
  split; [reflexivity|].
  rewrite (save_history_creates_under_generated_key
             (demo_env None (Ok reply_hi)) 9%Z ann_db
             [entry (U "user") (JStr (U "hello"))] [] eq_refl).
  reflexivity.
Defined.


Lemma malformed_response_turn_witness :
  let env := demo_env None (Ok reply_not_json) in
  let out := step env 7%Z (U "hello") (start ann_db) in
  let answer := parse_error ++ env_json_error env (strip_control reply_not_json) in
  answer <> []
  /\ sql_calls (trace (snd out)) = []
  /\ fst out = Ok (JStr answer)
  /\ exists row',
       leads (db (snd out)) !! 7%Z = Some row'
       /\ row_name row' = row_name ann_row
       /\ row_contact row' = row_contact ann_row
       /\ length (stored_history row') = (length (stored_history ann_row) + 2)%nat.
Proof.
  cbv zeta.
  destruct (malformed_response_turn
              (demo_env None (Ok reply_not_json)) 7%Z (U "hello") ann_db _ _
              (prompt (demo_env None (Ok reply_not_json)) (obj_of_row ann_row)
                      (U "user: hello") (U "hello"))
              reply_not_json (surjective_pairing _))
    as (Hne & Hsql & row & Hrow & Hout).
  - vm_compute. left. reflexivity.
  - reflexivity.
  - vm_compute. reflexivity.
  - change (Some ann_row = Some row) in Hrow.
    pose proof (f_equal (fun x => match x with Some r => r | None => row end) Hrow) as E.
    cbv beta iota in E. subst row.
    assert (Hs : has_surrogate
                   (turn_log ann_row (U "hello")
                      (JStr (parse_error
                             ++ env_json_error (demo_env None (Ok reply_not_json))
                                  (strip_control reply_not_json))))
                 = false) by (vm_compute; reflexivity).
    rewrite Hs in Hout. destruct Hout as [Hres Hrow'].
    split; [exact Hne|]. split; [exact Hsql|]. split; [exact Hres|exact Hrow'].
Defined.

(** C5, as stated, fails: with a stored history that holds a lone
    surrogate (in an entry beyond what the prompt shows of it) the
    model is called, with a prompt that holds no surrogate, and its
    reply is no JSON, yet the turn returns no diagnostic: the write of
    the new history raises and nothing is stored. *)
Lemma surrogate_history_fails_turn :
  let env := demo_env None (Ok reply_not_json) in
  let out := step env 7%Z (U "hello") (start surrogate_log_db) in
  json_loads (strip_control reply_not_json) = None
  /\ (exists msgs,
        sent_prompts (trace (snd out)) = [msgs]
        /\ forallb (fun m => negb (has_surrogate (content m))) msgs = true)
  /\ fst out
     = Raise (U "'utf-8' codec can't encode character '\ud83d' in position 2068: surrogates not allowed")
  /\ db (snd out) = surrogate_log_db.
Proof.
  cbv zeta. split; [vm_compute; reflexivity|].
  split; [eexists; split; vm_compute; reflexivity|].
  split; vm_compute; reflexivity.
Qed.

Lemma llm_failure_propagates_witness :
  let env := demo_env None (Raise (U "Connection error.")) in
  let out := step env 7%Z (U "hello") (start ann_db) in
  fst out = Raise (U "Connection error.")
  /\ db (snd out) = ann_db
  /\ lead_writes (trace (snd out)) = [].
Proof.
  cbv zeta.
  apply (llm_failure_propagates
           (demo_env None (Raise (U "Connection error."))) 7%Z (U "hello")
           ann_db _ _
           (prompt (demo_env None (Raise (U "Connection error.")))
                   (obj_of_row ann_row) (U "user: hello") (U "hello"))).
  - apply surjective_pairing.
  - vm_compute. left. reflexivity.
  - reflexivity.
Defined.


Lemma history_message_keeps_head_witness :
  let env := demo_env None (Ok reply_hi) in
  let out := step env 7%Z long_input (start ann_db) in
  exists row lines,
    leads ann_db !! 7%Z = Some row
    /\ Forall2 (fun m line =>
                  exists r c, subscript m (U "role") = Ok r
                              /\ subscript m (U "content") = Ok c
                              /\ line = py_str env r ++ U ": " ++ py_str env c)
               (stored_history row ++ [entry (U "user") (JStr long_input)]) lines
    /\ nth_error (prompt env (obj_of_row ann_row) (U "user: " ++ long_input)
                         long_input) 6
       = Some (system (history_header ++ firstn 2000 (join [10] lines))).
Proof.
  cbv zeta.
  apply (history_message_keeps_head
           (demo_env None (Ok reply_hi)) 7%Z long_input ann_db
           (fst (step (demo_env None (Ok reply_hi)) 7%Z long_input
                      (start ann_db)))
           (snd (step (demo_env None (Ok reply_hi)) 7%Z long_input
                      (start ann_db)))
           (prompt (demo_env None (Ok reply_hi)) (obj_of_row ann_row)
                   (U "user: " ++ long_input) long_input)).
  - apply surjective_pairing.
  - vm_compute. left. reflexivity.
Defined.

Lemma clear_dialog_misses_client_id_witness :
  exists st1 st2,
    clear_dialog (demo_env None (Ok reply_hi)) 7%Z (start admin_db) = (Ok tt, st1)
    /\ clear_dialog (demo_env None (Ok reply_hi)) 7%Z (start (db st1))
       = (Ok tt, st2)
    /\ leads (db st1) !! 7%Z = None
    /\ leads (db st2) !! 7%Z = None
    /\ leads (db st2) !! 2%Z = Some cleared
    /\ leads (db st2) !! 3%Z = Some cleared.
Proof.
  apply (clear_dialog_misses_client_id
           (demo_env None (Ok reply_hi)) 7%Z admin_db);
    (reflexivity || discriminate).
Defined.




(** * Reading and writing the history *)

(** X1.  [load_history] never raises and changes neither the database
    nor the trace.  Without a row for the client it returns no lead and
    the empty history; with one it returns the lead and the list its
    log holds, the empty history when the log is NULL, empty, not JSON
    or JSON that is not a list. *)
Theorem load_history_never_raises cid d :
  exists lead h st',
    load_history cid (start d) = (Ok (lead, h), st')
    /\ db st' = d /\ trace st' = []
    /\ match leads d !! cid with
       | None => lead = None /\ h = []
       | Some row =>
           lead = Some cid
           /\ h = match row_log row with
                  | Some text =>
                      match json_loads text with
                      | Some (JArr l) => l
                      | _ => []
                      end
                  | None => []
                  end
       end.
Proof.
  destruct (leads d !! cid) as [row|] eqn:Hrow.
  - eexists _, _, _.
    split; [apply (load_history_found cid (start d) row Hrow eq_refl)|].
    cbn [db trace start]. repeat split.
    unfold stored_history. destruct (row_log row) as [[|c s]|]; reflexivity.
  - eexists _, _, _.
    split; [apply (load_history_missing cid (start d) Hrow eq_refl)|].
    cbn [db trace start]. repeat split.
Qed.



(** * What a turn leaves behind *)

Lemma sql_calls_none_db env sql d :
  sql_calls (sql_events sql) = [] -> db_after_sql env sql d = d.
Proof.
  rewrite sql_calls_events. unfold db_after_sql.
  destruct (sql_to_run sql); [discriminate|reflexivity].
Qed.

Lemma sql_calls_turn msgs sql :
  sql_calls ([EvGpt msgs] ++ sql_events sql) = sql_calls (sql_events sql).
Proof. reflexivity. Qed.

Lemma sql_calls_turn_written msgs sql cid row :
  sql_calls (([EvGpt msgs] ++ sql_events sql) ++ [EvUpdateLead cid row])
  = sql_calls (sql_events sql).
Proof.
  rewrite sql_calls_app, sql_calls_turn. cbn [sql_calls flat_map app].
  apply app_nil_r.
Qed.

(** X3.  A turn that completes without passing a statement to
    [execute_sql] changes no row but the client's and creates none: the
    key generator and every other lead are as they were. *)
Theorem turn_changes_only_the_lead env cid input d ans st' :
  step env cid input (start d) = (Ok ans, st') ->
  sql_calls (trace st') = [] ->
  lead_seq (db st') = lead_seq d
  /\ forall other, other <> cid -> leads (db st') !! other = leads d !! other.
Proof.
  rewrite step_cases. cbv zeta. intros Hstep.
  destruct (leads d !! cid) as [row|]; [|discriminate].
  destruct (dialog_text env _) as [dlg|e]; [|discriminate].
  destruct (env_gpt env _) as [raw|e]; [|discriminate].
  destruct (leads (db_after_sql env _ d) !! cid) as [cur|]; [|discriminate].
  destruct (flush env _ cur) as [row'|e]; [|discriminate].
  outcome Hstep. cbn [trace db leads lead_seq].
  rewrite sql_calls_turn_written. intros Hsql.
  rewrite (sql_calls_none_db env _ d Hsql).
  split; [reflexivity|]. intros other Hne. apply lookup_insert_ne. auto.
Qed.



(** * Replies and histories the engine does not expect, and the prompt *)

Lemma interpret_not_object env raw v :
  json_loads (strip_control raw) = Some v ->
  (forall rd, v <> JObj rd) ->
  interpret env raw
  = ([], JStr (parse_error ++ U "'" ++ type_name v
               ++ U "' object has no attribute 'get'"), JNull).
Proof.
  intros Hv Hno. unfold interpret. cbv zeta. rewrite Hv.
  destruct v; try reflexivity. contradiction (Hno kv). reflexivity.
Qed.

(** X6.  A reply that is valid JSON but not an object (a list, a
    number, a text, ...) is handled like a malformed one: [.get] raises
    inside the [try], the answer is the diagnostic with the text of
    that error, no statement is run and nothing of the reply is
    applied.  The turn returns that answer, name and contact as they
    were and the history two entries longer, unless the text of the
    new history holds a lone surrogate: then the write raises, the
    turn fails and the database is as it was. *)
Theorem non_object_reply_turn env cid input d res st' msgs raw v :
  step env cid input (start d) = (res, st') ->
  In (EvGpt msgs) (trace st') ->
  env_gpt env msgs = Ok raw ->
  json_loads (strip_control raw) = Some v ->
  (forall rd, v <> JObj rd) ->
  let answer := parse_error ++ U "'" ++ type_name v
                ++ U "' object has no attribute 'get'" in
  sql_calls (trace st') = []
  /\ exists row,
       leads d !! cid = Some row
       /\ if has_surrogate (turn_log row input (JStr answer))
          then res = Raise (env_encode_error env (turn_log row input (JStr answer)))
               /\ db st' = d
          else res = Ok (JStr answer)
               /\ exists row',
                    leads (db st') !! cid = Some row'
                    /\ row_name row' = row_name row
                    /\ row_contact row' = row_contact row
                    /\ length (stored_history row')
                       = (length (stored_history row) + 2)%nat.
Proof.
  intros Hstep Hin Hgpt Hv Hno answer.
  destruct (reached_llm _ _ _ _ _ _ _ Hstep Hin) as (row & dlg & Hrow & Hdlg & Emsgs);
    subst msgs.
  destruct (diagnostic_turn env cid input d res st' row dlg raw answer
              Hrow Hdlg Hgpt (interpret_not_object _ _ _ Hv Hno) Hstep)
    as (Hsql & Hout).
  split; [exact Hsql|]. exists row. split; [exact Hrow|exact Hout].
Qed.

Lemma render_entries_app_raise env h extra e :
  render_entries env h = Raise e -> render_entries env (h ++ extra) = Raise e.
Proof.
  induction h as [|m h IH]; [discriminate|]. cbn [render_entries app].
  destruct (render_entry env m) as [line|e1]; [|exact (fun H => H)].
  destruct (render_entries env h) as [lines|e1]; [discriminate|].
  intros H. rewrite (IH H). reflexivity.
Qed.

Lemma render_entries_in env h m e1 :
  In m h -> render_entry env m = Raise e1 ->
  exists e, render_entries env h = Raise e.
Proof.
  intros Hin Hbad. induction h as [|x h IH]; [destruct Hin|].
  cbn [render_entries].
  destruct (render_entry env x) as [line|e2] eqn:Hx; [|exists e2; reflexivity].
  destruct Hin as [->|Hin]; [rewrite Hbad in Hx; discriminate Hx|].
  destruct (IH Hin) as (e & He). rewrite He. exists e. reflexivity.
Qed.

(** X7.  When the stored history holds an entry that cannot be rendered
    as [role: content] (it is no dict, or lacks one of the two keys),
    the turn raises while building the prompt: the model is not called,
    nothing is written, and the stored log stays as it is. *)
Theorem unrenderable_history_blocks_turn env cid input d row m e1 :
  leads d !! cid = Some row ->
  In m (stored_history row) ->
  render_entry env m = Raise e1 ->
  exists e st',
    step env cid input (start d) = (Raise e, st')
    /\ db st' = d /\ trace st' = [].
Proof.
  intros Hrow Hin Hbad.
  destruct (render_entries_in env _ _ _ Hin Hbad) as (e & He).
  pose proof (render_entries_app_raise env _ [entry (U "user") (JStr input)] e He) as Hall.
  rewrite step_cases, Hrow. cbv zeta.
  assert (Hdlg : dialog_text env (stored_history row ++ [entry (U "user") (JStr input)])
                 = Raise e).
  { unfold dialog_text. rewrite Hall.
    destruct (stored_history row ++ _) eqn:E; [|reflexivity].
    destruct (stored_history row); discriminate E. }
  rewrite Hdlg. eexists e, _. split; [reflexivity|]. split; reflexivity.
Qed.

(** X8.  After a turn that completes, the engine's [dialog_history]
    (what the route returns to the client) is the history the next
    request loads from the database. *)
Theorem returned_history_is_stored env cid input d ans st' :
  step env cid input (start d) = (Ok ans, st') ->
  fst (load_history cid (start (db st'))) = Ok (Some cid, dialog_history st').
Proof.
  rewrite step_cases. cbv zeta. intros Hstep.
  destruct (leads d !! cid) as [row|] eqn:Hrow; [|discriminate].
  destruct (dialog_text env _) as [dlg|e]; [|discriminate].
  destruct (env_gpt env _) as [raw|e]; [|discriminate].
  destruct (leads (db_after_sql env _ d) !! cid) as [cur|]; [|discriminate].
  rewrite turn_history_assoc in Hstep.
  destruct (flush env _ cur) as [row'|e] eqn:Hflush; [|discriminate].
  apply flush_log in Hflush; [|apply log_changed; discriminate].
  outcome Hstep. cbn [db dialog_history].
  rewrite (load_history_found cid _ row');
    [|cbn [db start leads]; apply lookup_insert_eq|reflexivity].
  cbn [fst]. rewrite (stored_history_log _ _ Hflush), map_app, stored_history_normal.
  cbn [map]. rewrite !norm_entry, interpret_answer_normal. reflexivity.
Qed.

Lemma profile_tail_cases env o input :
  profile_tail env o input
  = [if truthy (lead_name o) || truthy (lead_contact o)
     then known_info env o else greeting_nudge;
     user_message input].
Proof.
  unfold profile_tail.
  destruct (truthy (lead_name o)), (truthy (lead_contact o)); reflexivity.
Qed.

(** X9.  The prompt for a loaded lead always has nine messages: eight
    system messages and, last, the user message with the input; the
    eighth is the known data of the client when a name or a contact is
    known, and the request to greet and introduce otherwise. *)
Theorem prompt_shape env o dlg input :
  let msgs := prompt env o dlg input in
  length msgs = 9%nat
  /\ Forall (fun m => role m = U "system") (firstn 8 msgs)
  /\ nth_error msgs 7
     = Some (if truthy (lead_name o) || truthy (lead_contact o)
             then known_info env o else greeting_nudge)
  /\ nth_error msgs 8 = Some (user_message input).
Proof.
  cbv zeta. unfold prompt. rewrite profile_tail_cases.
  split; [reflexivity|]. split; [|split; reflexivity].
  unfold context_messages.
  repeat (apply List.Forall_cons; [reflexivity|]).
  apply List.Forall_cons; [|apply List.Forall_nil].
  destruct (truthy (lead_name o) || truthy (lead_contact o)); reflexivity.
Qed.

Lemma length_section header n text :
  (length (content (system (header ++ slice_to n text))) <= length header + n)%nat.
Proof.
  unfold system, slice_to. cbn [content].
  rewrite length_app, length_firstn. lia.
Qed.

(** X10.  Whatever the knowledge base and the history hold, the FAQ and
    the fragments messages carry at most 4000 characters after their
    header, and the history message at most 2000. *)
Theorem prompt_sections_are_bounded env o dlg input :
  let msgs := prompt env o dlg input in
  exists faq chunks history,
    nth_error msgs 4 = Some faq
    /\ nth_error msgs 5 = Some chunks
    /\ nth_error msgs 6 = Some history
    /\ (length (content faq) <= length faq_header + 4000)%nat
    /\ (length (content chunks) <= length chunks_header + 4000)%nat
    /\ (length (content history) <= length history_header + 2000)%nat.
Proof.
  cbv zeta.
  exists (system (faq_header ++ slice_to 4000 (fst (knowledge env input)))),
         (system (chunks_header ++ slice_to 4000 (snd (knowledge env input)))),
         (system (history_header ++ slice_to 2000 dlg)).
  repeat (split; [reflexivity|]).
  repeat split; apply length_section.
Qed.

(** * The profile services *)

Lemma flush_column_set env f c :
  field_encodable f = true ->
  flush_column env (set_field f (col_value c)) c c = Ok (updated_column f c).
Proof.
  intros He. unfold flush_column.
  destruct (same_value (set_field f (col_value c)) c) eqn:E.
  - destruct f as [[s|]|]; cbn [set_field updated_column col_value] in *;
      try reflexivity.
    + destruct c as [t|]; [|discriminate E]. cbn [same_value] in E.
      apply pystr_eqb_eq in E. subst t. reflexivity.
    + destruct c; [discriminate E|reflexivity].
  - destruct f as [[s|]|];
      cbn [set_field updated_column col_value bind_value field_encodable] in *.
    + destruct (has_surrogate s); [discriminate He|reflexivity].
    + reflexivity.
    + rewrite same_value_col in E. discriminate E.
Qed.

Lemma flush_update env u row :
  lead_encodable u = true ->
  flush env (mkTracked (apply_update u (obj_of_row row)) row) row
  = Ok (mkRow (updated_column (lb_name u) (row_name row))
              (updated_column (lb_contact u) (row_contact row))
              (updated_column (lb_log u) (row_log row))).
Proof.
  unfold lead_encodable. intros He.
  apply andb_prop in He. destruct He as [He Hl].
  apply andb_prop in He. destruct He as [Hn Hc].
  unfold flush, apply_update.
  cbn [obj loaded lead_name lead_contact lead_log obj_of_row].
  rewrite !flush_column_set by assumption. reflexivity.
Qed.

Lemma same_value_set f c :
  same_value (set_field f (col_value c)) c = true -> updated_column f c = c.
Proof.
  destruct f as [[s|]|]; cbn [set_field updated_column col_value]; intros E;
    try reflexivity.
  - destruct c as [t|]; [|discriminate E]. cbn [same_value] in E.
    apply pystr_eqb_eq in E. subst t. reflexivity.
  - destruct c; [discriminate E|reflexivity].
Qed.

(** X11.  [update_lead_service] on a new session: for a key without row
    it raises the 404 and changes nothing.  For a row that exists it
    leaves every other row and the key generator alone; when no field
    of the schema object holds a lone surrogate it succeeds, sets the
    columns of the fields that are set (to NULL when set to [None])
    and keeps the columns of the unset fields; and when it raises, as
    the driver does on a text it cannot encode, the database is as it
    was. *)
Theorem update_sets_only_given_fields env id u d :
  match leads d !! id with
  | None => update_lead_service env id u (start d) = (Raise http_404, start d)
  | Some row =>
      exists res st',
        update_lead_service env id u (start d) = (res, st')
        /\ lead_seq (db st') = lead_seq d
        /\ (forall other, other <> id ->
                          leads (db st') !! other = leads d !! other)
        /\ (lead_encodable u = true ->
            res = Ok tt
            /\ leads (db st') !! id
               = Some (mkRow (updated_column (lb_name u) (row_name row))
                             (updated_column (lb_contact u) (row_contact row))
                             (updated_column (lb_log u) (row_log row))))
        /\ (forall e, res = Raise e -> db st' = d)
  end.
Proof.
  destruct (leads d !! id) as [row|] eqn:Hrow.
  - unfold update_lead_service. run_monad. rewrite Hrow. run_monad.
    destruct (is_dirty _) eqn:Hd.
    + run_monad. rewrite Hrow.
      destruct (flush env _ row) as [row'|e] eqn:Hflush; run_monad.
      * rewrite lookup_insert_eq. eexists _, _. split; [reflexivity|].
        cbn [db leads lead_seq]. split; [reflexivity|].
        split; [intros other Hne; apply lookup_insert_ne; auto|].
        split; [|intros e H; discriminate H].
        intros He. split; [reflexivity|].
        rewrite (flush_update env u row He) in Hflush.
        pose proof (f_equal (fun x => match x with Ok r => r | Raise _ => row' end)
                      Hflush) as E.
        cbv beta iota in E. subst row'. apply lookup_insert_eq.
      * eexists _, _. split; [reflexivity|]. cbn [db].
        split; [reflexivity|]. split; [reflexivity|].
        split; [|reflexivity].
        intros He. rewrite (flush_update env u row He) in Hflush. discriminate Hflush.
    + run_monad. rewrite Hrow.
      eexists _, _. split; [reflexivity|]. cbn [db leads lead_seq].
      split; [reflexivity|]. split; [reflexivity|].
      split; [|intros e H; discriminate H].
      intros _. split; [reflexivity|].
      unfold is_dirty, apply_update in Hd.
      cbn [obj loaded lead_name lead_contact lead_log obj_of_row] in Hd.
      apply negb_false_iff in Hd. apply andb_prop in Hd. destruct Hd as [Hd Hl].
      apply andb_prop in Hd. destruct Hd as [Hn Hc].
      rewrite (same_value_set _ _ Hn), (same_value_set _ _ Hc), (same_value_set _ _ Hl).
      rewrite Hrow. destruct row; reflexivity.
  - unfold update_lead_service. run_monad. rewrite Hrow. reflexivity.
Qed.

Lemma bind_field_ok env f :
  field_encodable f = true ->
  bind_value env (col_value (field_default f)) = Ok (field_default f).
Proof.
  destruct f as [[s|]|]; cbn [field_encodable field_default col_value bind_value];
    try reflexivity.
  destruct (has_surrogate s); [discriminate|reflexivity].
Qed.

Lemma bind_field_fails env f :
  field_encodable f = false ->
  exists e, bind_value env (col_value (field_default f)) = Raise e.
Proof.
  destruct f as [[s|]|]; cbn [field_encodable field_default col_value bind_value];
    try discriminate.
  destruct (has_surrogate s); [eauto|discriminate].
Qed.

Lemma bind_row_cases env l :
  let row := mkRow (field_default (lb_name l)) (field_default (lb_contact l))
                   (field_default (lb_log l)) in
  if lead_encodable l then bind_row env row = Ok row
  else exists e, bind_row env row = Raise e.
Proof.
  cbv zeta. unfold lead_encodable, bind_row. cbn [row_name row_contact row_log].
  destruct (field_encodable (lb_name l)) eqn:Hn; cbn [andb].
  - rewrite (bind_field_ok env _ Hn).
    destruct (field_encodable (lb_contact l)) eqn:Hc; cbn [andb].
    + rewrite (bind_field_ok env _ Hc).
      destruct (field_encodable (lb_log l)) eqn:Hl.
      * rewrite (bind_field_ok env _ Hl). reflexivity.
      * destruct (bind_field_fails env _ Hl) as (e & ->). eauto.
    + destruct (bind_field_fails env _ Hc) as (e & ->). eauto.
  - destruct (bind_field_fails env _ Hn) as (e & ->). eauto.
Qed.

(** X12.  When no field given holds a lone surrogate,
    [create_lead_service] returns the key the table generated; a
    following [read_lead_service] of that key finds the row with the
    fields given, unset fields NULL; the rows that existed are
    unchanged and the generator has moved on by one.  When a field
    does, the INSERT raises and the database is as it was. *)
Theorem created_lead_is_read env cid l d :
  leads d !! lead_seq d = None ->
  exists res st',
    create_lead_service env cid l (start d) = (res, st')
    /\ if lead_encodable l
       then res = Ok (lead_seq d)
            /\ fst (read_lead_service (lead_seq d) (start (db st')))
               = Ok (track (mkRow (field_default (lb_name l))
                                  (field_default (lb_contact l))
                                  (field_default (lb_log l))))
            /\ lead_seq (db st') = (lead_seq d + 1)%Z
            /\ (forall other, other <> lead_seq d ->
                              leads (db st') !! other = leads d !! other)
       else (exists e, res = Raise e) /\ db st' = d.
Proof.
  intros Hseq. unfold create_lead_service. run_monad. rewrite Hseq. run_monad.
  pose proof (bind_row_cases env l) as Hb. cbv zeta in Hb.
  destruct (lead_encodable l).
  - rewrite Hb. run_monad.
    eexists _, _. split; [reflexivity|]. cbn [db leads lead_seq].
    split; [reflexivity|]. split; [|split; [reflexivity|]].
    + unfold read_lead_service. run_monad. rewrite lookup_insert_eq. reflexivity.
    + intros other Hne. apply lookup_insert_ne. auto.
  - destruct Hb as (e & ->).
    eexists _, _. split; [reflexivity|]. split; [eauto|reflexivity].
Qed.

(** * Headers of the knowledge document *)

Lemma until_newline_app s : fst (until_newline s) ++ snd (until_newline s) = s.
Proof.
  induction s as [|c s IH]; [reflexivity|]. cbn [until_newline].
  destruct (c =? 10); [reflexivity|]. cbn [fst snd app]. rewrite IH. reflexivity.
Qed.

Lemma until_newline_line t :
  Forall (fun c => c <> 10) t -> until_newline t = (t, []).
Proof.
  induction 1 as [|c t Hc _ IH]; [reflexivity|]. cbn [until_newline].
  destruct (N.eqb_spec c 10) as [E|_]; [contradiction|]. rewrite IH. reflexivity.
Qed.

Lemma until_newline_app_newline a b :
  until_newline (a ++ 10 :: b)
  = (fst (until_newline a), snd (until_newline a) ++ 10 :: b).
Proof.
  induction a as [|c a IH]; [reflexivity|]. cbn [app until_newline].
  destruct (c =? 10); [reflexivity|]. rewrite IH. reflexivity.
Qed.

Lemma dot_plus_app_newline a b :
  dot_plus (a ++ 10 :: b) = before_newline b (dot_plus a).
Proof.
  unfold dot_plus. rewrite until_newline_app_newline.
  destruct (until_newline a) as [[|x m] rest]; reflexivity.
Qed.

Lemma space_dot_plus_app_newline a b :
  space_dot_plus (a ++ 10 :: b) = before_newline b (space_dot_plus a).
Proof.
  destruct a as [|c a]; [reflexivity|]. cbn [app space_dot_plus].
  destruct (c =? 32); [|reflexivity]. rewrite dot_plus_app_newline.
  destruct (dot_plus a) as [[m rest]|]; reflexivity.
Qed.

Lemma match_header_app_newline a b :
  match_header (a ++ 10 :: b) = before_newline b (match_header a).
Proof.
  destruct a as [|c1 a]; [reflexivity|]. cbn [app match_header].
  destruct (c1 =? 35); [|reflexivity]. cbv zeta.
  destruct a as [|c2 a].
  - reflexivity.
  - change ((c2 :: a) ++ 10 :: b) with (c2 :: a ++ 10 :: b).
    cbv beta iota.
    change (c2 :: a ++ 10 :: b) with ((c2 :: a) ++ 10 :: b).
    rewrite !space_dot_plus_app_newline.
    destruct (c2 =? 35).
    + destruct (space_dot_plus a) as [[m rest]|]; [reflexivity|].
      destruct (space_dot_plus (c2 :: a)) as [[m rest]|]; reflexivity.
    + destruct (space_dot_plus (c2 :: a)) as [[m rest]|]; reflexivity.
Qed.

Lemma dot_plus_shorter s m rest :
  dot_plus s = Some (m, rest) -> (length rest < length s)%nat.
Proof.
  unfold dot_plus. pose proof (until_newline_app s) as H.
  destruct (until_newline s) as [[|x m'] rest']; [discriminate|].
  intros E. injection E as <- <-. rewrite <- H. cbn [fst snd app length].
  rewrite length_app. lia.
Qed.

Lemma space_dot_plus_shorter s m rest :
  space_dot_plus s = Some (m, rest) -> (length rest < length s)%nat.
Proof.
  destruct s as [|c r]; [discriminate|]. cbn [space_dot_plus].
  destruct (c =? 32); [|discriminate].
  destruct (dot_plus r) as [[m' rest']|] eqn:E; [|discriminate].
  intros H. injection H as <- <-. apply dot_plus_shorter in E. cbn [length]. lia.
Qed.

Lemma match_header_shorter s m rest :
  match_header s = Some (m, rest) -> (length rest < length s)%nat.
Proof.
  destruct s as [|c1 r1]; [discriminate|]. cbn [match_header].
  destruct (c1 =? 35); [|discriminate]. cbv zeta.
  assert (Hone : match space_dot_plus r1 with
                 | Some (m0, rest0) => Some (c1 :: m0, rest0)
                 | None => None
                 end = Some (m, rest) -> (length rest < length (c1 :: r1))%nat).
  { destruct (space_dot_plus r1) as [[m0 rest0]|] eqn:E; [|discriminate].
    intros H. injection H as <- <-. apply space_dot_plus_shorter in E.
    cbn [length]. lia. }
  destruct r1 as [|c2 r2]; [exact Hone|].
  destruct (c2 =? 35); [|exact Hone].
  destruct (space_dot_plus r2) as [[m0 rest0]|] eqn:E; [|exact Hone].
  intros H. injection H as <- <-. apply space_dot_plus_shorter in E.
  cbn [length]. lia.
Qed.

Lemma sub_headers_nil fuel : sub_headers fuel [] = [].
Proof. destruct fuel; reflexivity. Qed.

Lemma sub_headers_fuel n :
  forall s f1 f2,
    (length s <= n)%nat -> (length s <= f1)%nat -> (length s <= f2)%nat ->
    sub_headers f1 s = sub_headers f2 s.
Proof.
  induction n as [|n IH]; intros s f1 f2 Hn H1 H2.
  - destruct s; [|cbn [length] in Hn; lia]. rewrite !sub_headers_nil. reflexivity.
  - destruct s as [|c r]; [rewrite !sub_headers_nil; reflexivity|].
    destruct f1 as [|f1]; [cbn [length] in H1; lia|].
    destruct f2 as [|f2]; [cbn [length] in H2; lia|].
    cbn [sub_headers length] in *.
    destruct (match_header (c :: r)) as [[m rest]|] eqn:E.
    + apply match_header_shorter in E. cbn [length] in E.
      rewrite (IH rest f1 f2) by lia. reflexivity.
    + rewrite (IH r f1 f2) by lia. reflexivity.
Qed.

Lemma duplicate_headers_fuel s fuel :
  (length s <= fuel)%nat ->
  sub_headers fuel s = duplicate_headers_without_hashes s.
Proof.
  intros H. unfold duplicate_headers_without_hashes.
  apply (sub_headers_fuel (length s)); lia.
Qed.

Lemma duplicate_headers_step s :
  duplicate_headers_without_hashes s
  = match match_header s with
    | Some (m, rest) => replacer m ++ duplicate_headers_without_hashes rest
    | None =>
        match s with
        | c :: r => c :: duplicate_headers_without_hashes r
        | [] => []
        end
    end.
Proof.
  destruct s as [|c r]; [reflexivity|].
  unfold duplicate_headers_without_hashes at 1. cbn [length sub_headers].
  destruct (match_header (c :: r)) as [[m rest]|] eqn:E.
  - apply match_header_shorter in E. cbn [length] in E.
    rewrite duplicate_headers_fuel by lia. reflexivity.
  - rewrite duplicate_headers_fuel by lia. reflexivity.
Qed.

(** X13.  [duplicate_headers_without_hashes] returns a text without the
    character [#] unchanged. *)
Theorem text_without_marks_is_unchanged text :
  Forall (fun c => c <> 35) text ->
  duplicate_headers_without_hashes text = text.
Proof.
  induction 1 as [|c r Hc _ IH]; [reflexivity|].
  rewrite duplicate_headers_step. cbn [match_header].
  destruct (N.eqb_spec c 35) as [E|_]; [contradiction|]. rewrite IH. reflexivity.
Qed.

(** X14.  [duplicate_headers_without_hashes] works line by line: no
    match of the pattern spans a newline, so the result for two parts
    joined by a newline is the results for the parts joined by a
    newline. *)
Theorem headers_are_duplicated_line_by_line a b :
  duplicate_headers_without_hashes (a ++ 10 :: b)
  = duplicate_headers_without_hashes a
    ++ 10 :: duplicate_headers_without_hashes b.
Proof.
  remember (length a) as n eqn:Hn.
  assert (Hle : (length a <= n)%nat) by lia. clear Hn.
  revert a Hle. induction n as [|n IH]; intros a Hle.
  - destruct a; [|cbn [length] in Hle; lia].
    rewrite (duplicate_headers_step ([] ++ 10 :: b)). reflexivity.
  - destruct a as [|c r].
    + rewrite (duplicate_headers_step ([] ++ 10 :: b)). reflexivity.
    + rewrite (duplicate_headers_step ((c :: r) ++ 10 :: b)),
        (duplicate_headers_step (c :: r)), match_header_app_newline.
      destruct (match_header (c :: r)) as [[m rest]|] eqn:E; cbn [before_newline].
      * apply match_header_shorter in E. cbn [length] in E, Hle.
        rewrite IH by lia. rewrite <- app_assoc. reflexivity.
      * cbn [app]. cbn [length] in Hle. rewrite IH by lia. reflexivity.
Qed.

Lemma strip_leading_space s : strip (32 :: s) = strip s.
Proof. reflexivity. Qed.

Lemma filter_marks_line t :
  List.filter (fun c => negb (c =? 35)) (32 :: t)
  = 32 :: List.filter (fun c => negb (c =? 35)) t.
Proof. reflexivity. Qed.

Lemma duplicate_headers_skip p s :
  Forall (fun c => c <> 35) p ->
  duplicate_headers_without_hashes (p ++ s)
  = p ++ duplicate_headers_without_hashes s.
Proof.
  induction 1 as [|c r Hc _ IH]; [reflexivity|].
  rewrite (duplicate_headers_step ((c :: r) ++ s)). cbn [app match_header].
  destruct (N.eqb_spec c 35) as [E|_]; [contradiction|]. rewrite IH. reflexivity.
Qed.

(** X15.  A header, one or two [#] and a space followed by a title that
    is not empty, gets after it a new line with the title without its
    [#] characters and without surrounding whitespace; what precedes
    the header on its line (text without [#]) is kept, so a header is
    recognised anywhere in a line, not only at its start. *)
Theorem header_gets_a_plain_copy p marks t :
  Forall (fun c => c <> 35) p ->
  marks = [35] \/ marks = [35; 35] ->
  t <> [] -> Forall (fun c => c <> 10) t ->
  duplicate_headers_without_hashes (p ++ marks ++ 32 :: t)
  = p ++ marks ++ 32 :: t
    ++ 10 :: strip (List.filter (fun c => negb (c =? 35)) t).
Proof.
  intros Hp Hmarks Ht Hline.
  rewrite (duplicate_headers_skip _ _ Hp). f_equal.
  assert (Hdot : dot_plus t = Some (t, [])).
  { unfold dot_plus. rewrite (until_newline_line t Hline).
    destruct t; [contradiction Ht; reflexivity|reflexivity]. }
  assert (Hsp : space_dot_plus (32 :: t) = Some (32 :: t, [])).
  { cbn [space_dot_plus]. change (32 =? 32) with true. cbv iota.
    rewrite Hdot. reflexivity. }
  rewrite duplicate_headers_step.
  destruct Hmarks as [-> | ->].
  - change ([35] ++ 32 :: t) with (35 :: 32 :: t).
    assert (Hm : match_header (35 :: 32 :: t) = Some (35 :: 32 :: t, [])).
    { cbn [match_header]. change (35 =? 35) with true. cbv iota zeta.
      rewrite Hsp. reflexivity. }
    rewrite Hm. unfold replacer. rewrite app_nil_r.
    change (List.filter (fun c => negb (c =? 35)) (35 :: 32 :: t))
      with (32 :: List.filter (fun c => negb (c =? 35)) t).
    rewrite strip_leading_space. reflexivity.
  - change ([35; 35] ++ 32 :: t) with (35 :: 35 :: 32 :: t).
    assert (Hm : match_header (35 :: 35 :: 32 :: t) = Some (35 :: 35 :: 32 :: t, [])).
    { cbn [match_header]. change (35 =? 35) with true. cbv iota zeta.
      rewrite Hsp. reflexivity. }
    rewrite Hm. unfold replacer. rewrite app_nil_r.
    change (List.filter (fun c => negb (c =? 35)) (35 :: 35 :: 32 :: t))
      with (32 :: List.filter (fun c => negb (c =? 35)) t).
    rewrite strip_leading_space. reflexivity.
Qed.

(** * The history route *)

Lemma get_dialog_history_cases loads_error cid d :
  get_dialog_history loads_error cid (start d)
  = match leads d !! cid with
    | None => (Raise http_404, start d)
    | Some row =>
        (match row_log row with
         | Some (c :: text) =>
             match loads_error (c :: text) with
             | Some e => Raise (history_error ++ e)
             | None =>
                 Ok (history_body cid
                       match json_loads (c :: text) with
                       | Some v => v
                       | None => JArr []
                       end)
             end
         | _ => Ok (history_body cid (JArr []))
         end,
         mkState d (Some (track row)) [] [])
    end.
Proof.
  unfold get_dialog_history, history_body. run_monad.
  destruct (leads d !! cid) as [row|]; run_monad; [|reflexivity].
  cbn [obj_of_row lead_log].
  destruct (row_log row) as [[|c s]|]; cbn [col_value truthy]; run_monad;
    try reflexivity.
  destruct (loads_error (c :: s)); run_monad; [reflexivity|].
  destruct (json_loads (c :: s)); reflexivity.
Qed.

(** X16.  [get_dialog_history] on a new session: for a client without
    row it raises the 404 of [read_lead_service] (never the 500 of its
    own handler) and changes nothing.  For a client with a row it
    writes nothing, and: a log that is NULL or empty gives the empty
    list; a log on which [json.loads] raises an error of the
    interpreter's limits (an [int] of too many digits, a nesting too
    deep), which the handler does not catch with
    [json.JSONDecodeError], gives the 500 with the text of that error;
    any other log gives its JSON value, whatever its type, and the
    empty list when it is not JSON. *)
Theorem history_route_reads_stored_log loads_error cid d :
  get_dialog_history loads_error cid (start d)
  = match leads d !! cid with
    | None => (Raise http_404, start d)
    | Some row =>
        (match row_log row with
         | Some (c :: text) =>
             match loads_error (c :: text) with
             | Some e => Raise (history_error ++ e)
             | None =>
                 Ok (history_body cid
                       match json_loads (c :: text) with
                       | Some v => v
                       | None => JArr []
                       end)
             end
         | _ => Ok (history_body cid (JArr []))
         end,
         mkState d (Some (track row)) [] [])
    end.
Proof. apply get_dialog_history_cases. Qed.

Lemma json_dumps_array_cons l : exists c s, json_dumps (JArr l) = c :: s.
Proof.
  destruct (json_dumps (JArr l)) as [|c s] eqn:E; [|eauto].
  apply (f_equal (@length N)) in E. exfalso. revert E.
  destruct l; cbn; rewrite ?length_app; cbn; lia.
Qed.

(** X17.  After a turn that completes, [get_dialog_history] returns
    for the client the history of that turn, its two new entries
    last; unless [json.loads] raises an error of the interpreter's
    limits on the stored text of that history, when the route answers
    with the 500 that carries the error. *)
Theorem history_route_after_turn env loads_error cid input d ans st' :
  step env cid input (start d) = (Ok ans, st') ->
  fst (get_dialog_history loads_error cid (start (db st')))
  = match loads_error (json_dumps (JArr (dialog_history st'))) with
    | None => Ok (history_body cid (JArr (dialog_history st')))
    | Some e => Raise (history_error ++ e)
    end.
Proof.
  rewrite step_cases. cbv zeta. intros Hstep.
  destruct (leads d !! cid) as [row|] eqn:Hrow; [|discriminate].
  destruct (dialog_text env _) as [dlg|e]; [|discriminate].
  destruct (env_gpt env _) as [raw|e]; [|discriminate].
  destruct (leads (db_after_sql env _ d) !! cid) as [cur|]; [|discriminate].
  rewrite turn_history_assoc in Hstep.
  destruct (flush env _ cur) as [row'|e] eqn:Hflush; [|discriminate].
  apply flush_log in Hflush; [|apply log_changed; discriminate].
  outcome Hstep. cbn [db dialog_history].
  rewrite get_dialog_history_cases. cbn [leads].
  rewrite lookup_insert_eq. cbn [fst]. rewrite Hflush.
  match goal with
  | |- context [json_dumps (JArr ?l)] =>
      destruct (json_dumps_array_cons l) as (c & s & Hd)
  end.
  rewrite Hd. destruct (loads_error (c :: s)); [reflexivity|].
  rewrite <- Hd, json_loads_dumps.
  cbn [norm]. rewrite map_app, stored_history_normal.
  cbn [map]. rewrite !norm_entry, interpret_answer_normal. reflexivity.
Qed.

(** * Unescaping newlines in logged data *)

Lemma unescape_text_id s : no_escape s = true -> unescape_text s = s.
Proof.
  induction s as [|c r IH]; [reflexivity|]. cbn [no_escape unescape_text].
  destruct r as [|c' r']; [reflexivity|].
  destruct ((c =? 92) && (c' =? 110)); [discriminate|]. cbn [negb andb].
  intros H. rewrite (IH H). reflexivity.
Qed.

Lemma unescape_text_head c r :
  exists r', unescape_text (c :: r) = 10 :: r' \/ unescape_text (c :: r) = c :: r'.
Proof.
  cbn [unescape_text]. destruct r as [|c' r']; [exists []; right; reflexivity|].
  destruct ((c =? 92) && (c' =? 110)); eexists; [left|right]; reflexivity.
Qed.

Lemma no_escape_cons c s :
  no_escape s = true ->
  match s with
  | c' :: _ => (c =? 92) && (c' =? 110) = false
  | [] => True
  end ->
  no_escape (c :: s) = true.
Proof.
  intros Hs Hc. cbn [no_escape]. destruct s as [|c' r]; [reflexivity|].
  rewrite Hc, Hs. reflexivity.
Qed.

Lemma unescape_text_no_escape n :
  forall s, (length s <= n)%nat -> no_escape (unescape_text s) = true.
Proof.
  induction n as [|n IH]; intros s Hn.
  - destruct s; [reflexivity|cbn [length] in Hn; lia].
  - destruct s as [|c r]; [reflexivity|]. cbn [unescape_text].
    destruct r as [|c' r']; [reflexivity|]. cbn [length] in Hn.
    destruct ((c =? 92) && (c' =? 110)) eqn:E.
    + apply no_escape_cons; [apply IH; lia|].
      destruct (unescape_text r'); [exact I|reflexivity].
    + apply no_escape_cons; [apply IH; cbn [length]; lia|].
      destruct (unescape_text_head c' r') as (x & [Hx|Hx]); rewrite Hx.
      * rewrite andb_false_r. reflexivity.
      * exact E.
Qed.

Lemma unescape_text_idempotent s :
  unescape_text (unescape_text s) = unescape_text s.
Proof.
  apply unescape_text_id, (unescape_text_no_escape (length s)). lia.
Qed.

Lemma dict_set_values (P : json -> Prop) k v d :
  P v -> Forall (fun p => P (snd p)) d ->
  Forall (fun p => P (snd p)) (dict_set k v d).
Proof.
  intros Hv. induction 1 as [|[k0 v0] d H0 Hd IH]; cbn [dict_set].
  - repeat constructor. exact Hv.
  - destruct (pystr_eqb k k0); constructor; auto.
Qed.

Lemma dict_of_pairs_values (P : json -> Prop) l :
  Forall (fun p => P (snd p)) l ->
  Forall (fun p => P (snd p)) (dict_of_pairs l).
Proof.
  unfold dict_of_pairs.
  assert (H : forall acc, Forall (fun p => P (snd p)) acc ->
                Forall (fun p => P (snd p)) l ->
                Forall (fun p => P (snd p))
                  (fold_left (fun d kv => dict_set (fst kv) (snd kv) d) l acc)).
  { induction l as [|[k v] l IH]; intros acc Hacc Hl; cbn [fold_left]; [exact Hacc|].
    apply IH; [|exact (List.Forall_inv_tail Hl)].
    apply dict_set_values; [exact (List.Forall_inv Hl)|exact Hacc]. }
  intros Hl. apply H; [constructor|exact Hl].
Qed.

Lemma map_fixed_values (f : json -> json) d :
  Forall (fun p => f (snd p) = snd p) d -> map (on_values f) d = d.
Proof.
  induction 1 as [|[k v] d Hv _ IH]; [reflexivity|]. cbn [map].
  unfold on_values at 1. cbn [fst snd] in *. rewrite Hv, IH. reflexivity.
Qed.

(** X18.  [unescape_newlines] is idempotent on JSON data: after one
    pass no text in the data holds a backslash followed by the letter
    n, so a second pass changes nothing. *)
Theorem unescape_newlines_idempotent v :
  unescape_newlines (unescape_newlines v) = unescape_newlines v.
Proof.
  induction v as [| | | | | |s|l IH|kv IH] using json_ind; try reflexivity.
  - cbn [unescape_newlines]. rewrite unescape_text_idempotent. reflexivity.
  - cbn [unescape_newlines]. f_equal. rewrite map_map.
    induction IH as [|x l Hx _ IHl]; [reflexivity|]. cbn [map].
    rewrite Hx, IHl. reflexivity.
  - cbn [unescape_newlines]. f_equal.
    change (fun p : pystr * json => (fst p, unescape_newlines (snd p)))
      with (on_values unescape_newlines).
    rewrite map_fixed_values.
    + apply dict_of_pairs_id, dict_of_pairs_uniq.
    + apply (dict_of_pairs_values (fun x => unescape_newlines x = x)).
      induction IH as [|[k x] r Hx _ IHr]; [constructor|].
      cbn [map]. constructor; [exact Hx|exact IHr].
Qed.

(** * The order of a turn's effects, and what the next turn sees *)





Lemma prompt_profile_message env o dlg input :
  nth_error (prompt env o dlg input) 7
  = Some (if truthy (lead_name o) || truthy (lead_contact o)
          then known_info env o else greeting_nudge).
Proof. unfold prompt. rewrite profile_tail_cases. reflexivity. Qed.


Lemma stored_history_cleared : stored_history cleared = [].
Proof. reflexivity. Qed.

(** X21.  After [clear_dialog] for an existing lead, the next turn
    shows the model no earlier entry: the history message holds the
    line of the new input only, and the eighth message is the request
    to greet and introduce. *)
Theorem cleared_dialog_starts_afresh env cid d row env2 input :
  leads d !! cid = Some row ->
  exists st1,
    clear_dialog env cid (start d) = (Ok tt, st1)
    /\ forall res st2 msgs,
         step env2 cid input (start (db st1)) = (res, st2) ->
         In (EvGpt msgs) (trace st2) ->
         msgs = prompt env2 (obj_of_row cleared) (U "user: " ++ input) input
         /\ nth_error msgs 6
            = Some (system (history_header ++ slice_to 2000 (U "user: " ++ input)))
         /\ nth_error msgs 7 = Some greeting_nudge.
Proof.
  intros Hrow. eexists. split; [apply (clear_dialog_found env cid d row Hrow)|].
  cbn [db]. intros res st2 msgs Hstep Hin.
  destruct (reached_llm _ _ _ _ _ _ _ Hstep Hin) as (row2 & dlg & Hrow2 & Hdlg & Emsgs).
  cbn [leads] in Hrow2. rewrite lookup_insert_eq in Hrow2. injection Hrow2 as <-.
  rewrite stored_history_cleared in Hdlg.
  change (Ok (U "user: " ++ input) = Ok dlg) in Hdlg.
  pose proof (f_equal (fun x => match x with Ok y => y | Raise _ => dlg end) Hdlg) as E.
  cbv beta iota in E. subst dlg msgs.
  split; [reflexivity|]. split; [reflexivity|].
  rewrite prompt_profile_message. reflexivity.
Qed.

(** * The further theorems at concrete inputs *)


Lemma turn_changes_only_the_lead_witness :
  let out := step (demo_env None (Ok reply_hi)) 7%Z (U "hello") (start ann_db) in
  lead_seq (db (snd out)) = lead_seq ann_db
  /\ forall other, other <> 7%Z ->
                   leads (db (snd out)) !! other = leads ann_db !! other.
Proof.
  cbv zeta.
  apply (turn_changes_only_the_lead
           (demo_env None (Ok reply_hi)) 7%Z (U "hello") ann_db (JStr (U "hi"))).
  - vm_compute. reflexivity.
  - vm_compute. reflexivity.
Defined.



Lemma non_object_reply_turn_witness :
  let env := demo_env None (Ok reply_list) in
  let out := step env 7%Z (U "hello") (start ann_db) in
  fst out = Ok (JStr (parse_error ++ U "'" ++ type_name (JArr [JInt 1; JInt 2])
                      ++ U "' object has no attribute 'get'"))
  /\ sql_calls (trace (snd out)) = []
  /\ exists row',
       leads (db (snd out)) !! 7%Z = Some row'
       /\ row_name row' = row_name ann_row
       /\ row_contact row' = row_contact ann_row
       /\ length (stored_history row') = (length (stored_history ann_row) + 2)%nat.
Proof.
  cbv zeta.
  destruct (non_object_reply_turn
              (demo_env None (Ok reply_list)) 7%Z (U "hello") ann_db _ _
              (prompt (demo_env None (Ok reply_list)) (obj_of_row ann_row)
                      (U "user: hello") (U "hello"))
              reply_list (JArr [JInt 1; JInt 2]) (surjective_pairing _))
    as (Hsql & row & Hrow & Hout).
  - vm_compute. left. reflexivity.
  - reflexivity.
  - vm_compute. reflexivity.
  - discriminate.
  - change (Some ann_row = Some row) in Hrow.
    pose proof (f_equal (fun x => match x with Some r => r | None => row end) Hrow) as E.
    cbv beta iota in E. subst row.
    assert (Hs : has_surrogate
                   (turn_log ann_row (U "hello")
                      (JStr (parse_error ++ U "'" ++ type_name (JArr [JInt 1; JInt 2])
                             ++ U "' object has no attribute 'get'")))
                 = false) by (vm_compute; reflexivity).
    rewrite Hs in Hout. destruct Hout as [Hres Hrow'].
    split; [exact Hres|]. split; [exact Hsql|exact Hrow'].
Defined.

Lemma unrenderable_history_blocks_turn_witness :
  exists e st',
    step (demo_env None (Ok reply_hi)) 7%Z (U "hello") (start stray_log_db)
    = (Raise e, st')
    /\ db st' = stray_log_db /\ trace st' = [].
Proof.
  apply (unrenderable_history_blocks_turn
           (demo_env None (Ok reply_hi)) 7%Z (U "hello") stray_log_db
           (mkRow (Some (U "Ann")) None (Some (U "[1]"))) (JInt 1)
           (U "'int' object is not subscriptable")).
  - reflexivity.
  - vm_compute. left. reflexivity.
  - vm_compute. reflexivity.
Defined.

Lemma returned_history_is_stored_witness :
  let out := step (demo_env None (Ok reply_hi)) 7%Z (U "hello") (start ann_db) in
  fst (load_history 7%Z (start (db (snd out))))
  = Ok (Some 7%Z, dialog_history (snd out)).
Proof.
  cbv zeta.
  apply (returned_history_is_stored
           (demo_env None (Ok reply_hi)) 7%Z (U "hello") ann_db (JStr (U "hi"))).
  vm_compute. reflexivity.
Defined.

Lemma created_lead_is_read_witness :
  exists st',
    create_lead_service (demo_env None (Ok reply_hi)) 7%Z
      (mkLead (Some (Some (U "Bob"))) None None) (start ann_db)
    = (Ok 8%Z, st')
    /\ fst (read_lead_service 8%Z (start (db st')))
       = Ok (track (mkRow (Some (U "Bob")) None None))
    /\ lead_seq (db st') = 9%Z
    /\ forall other, other <> 8%Z ->
                     leads (db st') !! other = leads ann_db !! other.
Proof.
  destruct (created_lead_is_read (demo_env None (Ok reply_hi)) 7%Z
              (mkLead (Some (Some (U "Bob"))) None None) ann_db eq_refl)
    as (res & st' & Hcreate & Hout).
  assert (He : lead_encodable (mkLead (Some (Some (U "Bob"))) None None) = true)
    by (vm_compute; reflexivity).
  rewrite He in Hout. destruct Hout as [Hres Hrest].
  exists st'. rewrite Hcreate, Hres. split; [reflexivity|exact Hrest].
Defined.



Lemma cleared_dialog_starts_afresh_witness :
  exists st1,
    clear_dialog (demo_env None (Ok reply_hi)) 7%Z (start ann_db) = (Ok tt, st1)
    /\ forall res st2 msgs,
         step (demo_env None (Ok reply_hi)) 7%Z (U "hello") (start (db st1))
         = (res, st2) ->
         In (EvGpt msgs) (trace st2) ->
         msgs = prompt (demo_env None (Ok reply_hi)) (obj_of_row cleared)
                       (U "user: " ++ U "hello") (U "hello")
         /\ nth_error msgs 6
            = Some (system (history_header
                            ++ slice_to 2000 (U "user: " ++ U "hello")))
         /\ nth_error msgs 7 = Some greeting_nudge.
Proof.
  apply (cleared_dialog_starts_afresh (demo_env None (Ok reply_hi)) 7%Z ann_db
           ann_row (demo_env None (Ok reply_hi)) (U "hello")).
  reflexivity.
Defined.

Lemma clear_dialog_idempotent_witness :
  exists st1 st2,
    clear_dialog (demo_env None (Ok reply_hi)) 7%Z (start ann_db) = (Ok tt, st1)
    /\ clear_dialog (demo_env None (Ok reply_hi)) 7%Z (start (db st1)) = (Ok tt, st2)
    /\ leads (db st1) !! 7%Z = Some cleared
    /\ db st2 = db st1.
Proof.
  apply (clear_dialog_idempotent (demo_env None (Ok reply_hi)) 7%Z ann_db ann_row).
  reflexivity.
Defined.

Lemma completed_turn_writes_once_witness :
  let out := step (demo_env None (Ok reply_hi)) 7%Z (U "hello") (start ann_db) in
  exists row',
    lead_writes (trace (snd out)) = [EvUpdateLead 7%Z row']
    /\ leads (db (snd out)) !! 7%Z = Some row'
    /\ row_log row' = Some (json_dumps (JArr (dialog_history (snd out))))
    /\ (sql_calls (trace (snd out)) = [] ->
        db (snd out) = mkDb (<[7%Z := row']> (leads ann_db)) (lead_seq ann_db)).
Proof.
  cbv zeta.
  apply (completed_turn_writes_once
           (demo_env None (Ok reply_hi)) 7%Z (U "hello") ann_db (JStr (U "hi"))).
  vm_compute. reflexivity.
Defined.

Lemma history_route_after_turn_witness :
  let out := step (demo_env None (Ok reply_hi)) 7%Z (U "hello") (start ann_db) in
  fst (get_dialog_history (fun _ => None) 7%Z (start (db (snd out))))
  = Ok (history_body 7%Z (JArr (dialog_history (snd out)))).
Proof.
  cbv zeta.
  apply (history_route_after_turn
           (demo_env None (Ok reply_hi)) (fun _ => None) 7%Z (U "hello") ann_db
           (JStr (U "hi"))).
  vm_compute. reflexivity.
Defined.

Lemma text_without_marks_is_unchanged_witness :
  duplicate_headers_without_hashes (U "Delivery takes 3 days.")
  = U "Delivery takes 3 days.".
Proof.
  apply (text_without_marks_is_unchanged (U "Delivery takes 3 days.")).
  vm_compute. repeat constructor; discriminate.
Defined.

Lemma header_gets_a_plain_copy_witness :
  duplicate_headers_without_hashes (U "See " ++ [35; 35] ++ 32 :: U "Delivery #1 ")
  = U "See " ++ [35; 35] ++ 32 :: U "Delivery #1 "
    ++ 10 :: strip (List.filter (fun c => negb (c =? 35)) (U "Delivery #1 ")).
Proof.
  apply (header_gets_a_plain_copy (U "See ") [35; 35] (U "Delivery #1 ")).
  - vm_compute. repeat constructor; discriminate.
  - right. reflexivity.
  - discriminate.
  - vm_compute. repeat constructor; discriminate.
Defined.
